(** * anchorpy: the program facade and the account client

    A shallow embedding of [src/anchorpy/program/core.py] and
    [src/anchorpy/program/namespace/account.py].

    Python dictionaries keyed by a declared name are [gmap string _];
    [bytes] objects are lists of [byte]; [int] is [Z]; an exception is a
    value of [Exception] carried by [Raise].  Every [await] on the
    connection is a step of the [Run] monad, which also records the call in
    a trace, so that what the transport received, and in which order, can be
    stated. *)

From Stdlib Require Import ZArith NArith.
From Stdlib.Strings Require Import Byte.
From stdpp Require Import gmap strings list fin_maps.

Open Scope Z_scope.

(** ** Data *)

Definition bytes : Type := list byte.

#[global] Instance byte_eq_dec : EqDecision byte := Byte.byte_eq_dec.

(** [solana.publickey.PublicKey]: a wrapper around the key's bytes. *)
Record PublicKey : Type := mkPublicKey { key_bytes : bytes }.

#[global] Instance PublicKey_eq_dec : EqDecision PublicKey.
Proof. solve_decision. Defined.

(** [solana.keypair.Keypair]; only its [public_key] is read here. *)
Record Keypair : Type := mkKeypair { keypair_public_key : PublicKey }.

(** [address: Union[str, PublicKey]]. *)
Inductive AddressType : Type :=
| AddressStr (s : string)
| AddressKey (k : PublicKey).

#[global] Instance AddressType_eq_dec : EqDecision AddressType.
Proof. solve_decision. Defined.

(** The exceptions that cross the code under study.  The first three are the
    classes the two modules define; [Foreign] stands for whatever a
    collaborator raises ([binascii.Error], [zlib.error], [IndexError],
    a transport failure, a layout decode error, ...), by class name and
    message. *)
Inductive Exception : Type :=
| IdlNotFoundError (msg : string)
| AccountDoesNotExistError (msg : string)
| AccountInvalidDiscriminator (msg : string)
| Foreign (class_name : string) (msg : string).

#[global] Instance Exception_eq_dec : EqDecision Exception.
Proof. solve_decision. Defined.

Inductive Result (A : Type) : Type :=
| Ok (a : A)
| Raise (e : Exception).
Arguments Ok {A} a.
Arguments Raise {A} e.

Definition result_bind {A B : Type} (r : Result A) (k : A -> Result B) : Result B :=
  match r with
  | Ok a => k a
  | Raise e => Raise e
  end.

(** A collaborator that lives outside the two modules can raise, but never
    one of the three local exception classes: it returns [Foreign_result]. *)
Definition Foreign_result (A : Type) : Type := (string * string) + A.

Definition foreign {A : Type} (r : Foreign_result A) : Result A :=
  match r with
  | inl (c, m) => Raise (Foreign c m)
  | inr a => Ok a
  end.

(** A decoded value, and [construct.Container]: field name to decoded value,
    in declaration order. *)
#[warnings="-register-all"]
Inductive Value : Type :=
| VInt (z : Z)
| VBool (b : bool)
| VStr (s : string)
| VBytes (b : bytes)
| VKey (k : PublicKey)
| VList (l : list Value)
| VStruct (fields : list (string * Value)).

Definition Container : Type := list (string * Value).

(** [solana.rpc.types.MemcmpOpts]. *)
Record MemcmpOpts : Type := mkMemcmpOpts {
  memcmp_offset : Z;
  memcmp_bytes : string
}.

#[global] Instance MemcmpOpts_eq_dec : EqDecision MemcmpOpts.
Proof. solve_decision. Defined.

(** The [value] of a [getAccountInfo] result, and one record of a
    [getProgramAccounts] result, as far as the client reads them:
    [value["data"]] is the JSON array [[payload, encoding]]. *)
Record AccountInfoValue : Type := mkAccountInfoValue {
  account_data : list string
}.

Record KeyedAccount : Type := mkKeyedAccount {
  keyed_pubkey : string;
  keyed_account : AccountInfoValue
}.

(** [solana.system_program.CreateAccountParams]. *)
Record CreateAccountParams : Type := mkCreateAccountParams {
  from_pubkey : PublicKey;
  new_account_pubkey : PublicKey;
  lamports : Z;
  space : Z;
  cap_program_id : PublicKey
}.

(** [solana.transaction.TransactionInstruction]. *)
Record AccountMeta : Type := mkAccountMeta {
  meta_pubkey : PublicKey;
  meta_is_signer : bool;
  meta_is_writable : bool
}.

Record TransactionInstruction : Type := mkTransactionInstruction {
  ti_keys : list AccountMeta;
  ti_program_id : PublicKey;
  ti_data : bytes
}.

(** ** The transport and its trace *)

(** One entry per call that leaves the client: the arguments as the callee
    receives them.  [AccountsDecode] records a call of the account coder's
    [decode], so that the order of the discriminator check and of the
    decoding can be stated. *)
Inductive Event : Type :=
| GetAccountInfo (address : AddressType) (encoding : option string)
| GetMinimumBalanceForRentExemption (usize : Z)
| GetProgramAccounts (program_id : PublicKey) (encoding : string)
    (commitment : option string) (data_size : option Z)
    (memcmp_opts : list MemcmpOpts)
| SendTransaction (tx : list TransactionInstruction)
| SimulateTransaction (tx : list TransactionInstruction)
| AccountsDecode (data : bytes).

(** [solana.rpc.async_api.AsyncClient], as far as the two modules call it.
    Each method answers with the part of the JSON response the caller reads
    ([resp["result"]["value"]], [resp["result"]]). *)
Record Connection : Type := mkConnection {
  get_account_info :
    AddressType -> option string -> Foreign_result (option AccountInfoValue);
  get_minimum_balance_for_rent_exemption : Z -> Foreign_result Z;
  get_program_accounts :
    PublicKey -> string -> option string -> option Z -> list MemcmpOpts ->
    Foreign_result (list KeyedAccount);
  _commitment : option string
}.

Record Wallet : Type := mkWallet { wallet_public_key : PublicKey }.

Record Provider : Type := mkProvider {
  connection : Connection;
  wallet : Wallet
}.

(** A computation that may [await] the transport: it extends the trace of
    calls and ends in a value or in an exception. *)
Definition Run (A : Type) : Type := list Event -> Result A * list Event.

Definition ret {A : Type} (a : A) : Run A := fun tr => (Ok a, tr).

Definition raise {A : Type} (e : Exception) : Run A := fun tr => (Raise e, tr).

Definition bind {A B : Type} (m : Run A) (k : A -> Run B) : Run B :=
  fun tr =>
    match m tr with
    | (Ok a, tr') => k a tr'
    | (Raise e, tr') => (Raise e, tr')
    end.

(** Perform a call: record it, then continue with its answer. *)
Definition call {A : Type} (ev : Event) (answer : Result A) : Run A :=
  fun tr => (answer, tr ++ [ev]).

(** A pure step that may raise. *)
Definition lift {A : Type} (r : Result A) : Run A := fun tr => (r, tr).

#[global] Instance Run_ret : MRet Run := @ret.
#[global] Instance Run_bind : MBind Run := fun A B k m => bind m k.
#[global] Instance Result_ret : MRet Result := @Ok.
#[global] Instance Result_bind : MBind Result := fun A B k r => result_bind r k.

(** Run a computation from the empty trace. *)
Definition run {A : Type} (m : Run A) : Result A * list Event := m [].

(** [for x in xs: acc.append(f(x))], stopping at the first exception. *)
Fixpoint for_each {A B : Type} (f : A -> Run B) (xs : list A) : Run (list B) :=
  match xs with
  | [] => ret []
  | x :: xs' =>
      y ← f x; ys ← for_each f xs'; ret (y :: ys)
  end.

(** A step that only adds to the trace, and whose result does not depend on
    the calls made before it. *)
Definition framed {A : Type} (m : Run A) : Prop :=
  forall tr, m tr = (fst (run m), tr ++ snd (run m)).

(** [xs[0]] on a JSON array. *)
Definition item0 {A : Type} (xs : list A) : Result A :=
  match xs with
  | x :: _ => Ok x
  | [] => Raise (Foreign "IndexError" "list index out of range")
  end.

(** ** Positional numerals

    [int.from_bytes(v, "big")] and the digit loops of the base-58 codec:
    [while i: i, idx = divmod(i, base); string = alphabet[idx] + string]. *)

Fixpoint to_digits_loop (base : N) (fuel : nat) (i : N) (acc : list N) : list N :=
  match fuel with
  | O => acc
  | S fuel' =>
      if (i =? 0)%N then acc
      else to_digits_loop base fuel' (i / base)%N ((i mod base)%N :: acc)
  end.

(** The loop runs once per digit; the number of bits of [i] bounds that. *)
Definition to_digits (base i : N) : list N :=
  to_digits_loop base (N.to_nat (N.size i)) i [].

Definition of_digits (base : N) (ds : list N) : N :=
  fold_left (fun acc d => (acc * base + d)%N) ds 0%N.

(** No digit out of range and no leading zero. *)
Definition canonical (base : N) (ds : list N) : Prop :=
  Forall (fun d => (d < base)%N) ds /\ head ds <> Some 0%N.

(** [l.lstrip(x)] for a one-element strip set. *)
Fixpoint lstrip {A : Type} `{EqDecision A} (x : A) (l : list A) : list A :=
  match l with
  | y :: l' => if decide (y = x) then lstrip x l' else l
  | [] => []
  end.

Fixpoint index_of {A : Type} `{EqDecision A} (x : A) (l : list A) : option nat :=
  match l with
  | [] => None
  | y :: l' => if decide (y = x) then Some 0%nat else S <$> index_of x l'
  end.

Definition byte_of_N (n : N) : byte := default x00 (Byte.of_N n).

(** ** Base 58 (the [base58] package, Bitcoin alphabet) *)

Definition b58_alphabet : bytes :=
  String.list_byte_of_string
    "123456789ABCDEFGHJKLMNPQRSTUVWXYZabcdefghijkmnopqrstuvwxyz".

Definition b58_char (d : N) : byte := default x00 (b58_alphabet !! N.to_nat d).

(** [b58encode_int(i, default_one=False)]. *)
Definition b58encode_int (i : N) : bytes := b58_char <$> to_digits 58 i.

(** [b58encode(v)]: the leading zero bytes become as many ['1'], the rest is
    the big-endian number in base 58. *)
Definition b58encode (v : bytes) : bytes :=
  let origlen := length v in
  let v' := lstrip x00 v in
  let newlen := length v' in
  let acc := of_digits 256 (Byte.to_N <$> v') in
  replicate (origlen - newlen) (b58_char 0) ++ b58encode_int acc.

(** The reading of a base-58 text, as the receiver of a filter applies it;
    [None] on a character outside the alphabet. *)
Definition b58decode_int (v : bytes) : option N :=
  foldl (fun acc c =>
           a ← acc; d ← index_of c b58_alphabet; Some (a * 58 + N.of_nat d)%N)
        (Some 0%N) v.

Definition b58decode (v : bytes) : option bytes :=
  let origlen := length v in
  let v' := lstrip (b58_char 0) v in
  let newlen := length v' in
  acc ← b58decode_int v';
  Some (replicate (origlen - newlen) x00 ++ (byte_of_N <$> to_digits 256 acc)).

(** [str(public_key)]: the base-58 text of the key's bytes. *)
Definition PublicKey_str (k : PublicKey) : string :=
  String.string_of_list_byte (b58encode (key_bytes k)).

(** How an address prints inside an f-string. *)
Definition format_address (address : AddressType) : string :=
  match address with
  | AddressStr s => s
  | AddressKey k => PublicKey_str k
  end.

(** ** zlib streams (RFC 1950) *)

(** What a DEFLATE (RFC 1951) decoder makes of an input it is handed in one
    piece: the final block was reached ([rest] is the input behind it), the
    input ran out first, or the input is not a DEFLATE stream. *)
Inductive Inflated : Type :=
| StreamEnd (output rest : bytes)
| NeedsInput (output : bytes)
| DataError (msg : string).

Definition adler32 (data : bytes) : N :=
  let '(a, b) :=
    foldl (fun '(a, b) x =>
             let a' := ((a + Byte.to_N x) mod 65521)%N in
             (a', ((b + a') mod 65521)%N))
          (1%N, 0%N) data in
  (b * 65536 + a)%N.

Definition zlib_error (msg : string) : Exception :=
  Foreign "zlib.error" ("Error -3 while decompressing data: " +:+ msg).

(** [zlib.decompressobj(wbits).decompress(data)] for [wbits] in 9..15: the
    input is a zlib stream, that is a two-byte header (compression method 8
    in the low nibble of the first byte, the window size in its high nibble,
    both bytes read as one big-endian number a multiple of 31, no preset
    dictionary), DEFLATE data, and the Adler-32 of the output, big-endian.
    A stream that stops short is no error for a decompression object: that
    holds inside the header, inside the four-byte identifier of a preset
    dictionary (once the identifier is there, the missing dictionary is the
    error), inside the DEFLATE data and inside the trailer. *)
Definition zlib_decompress (inflate_raw : bytes -> Inflated) (wbits : Z)
    (data : bytes) : Result bytes :=
  match data with
  | cmf :: flg :: body =>
      let cmf_n := Z.of_N (Byte.to_N cmf) in
      let flg_n := Z.of_N (Byte.to_N flg) in
      if bool_decide ((cmf_n * 256 + flg_n) mod 31 ≠ 0)
      then Raise (zlib_error "incorrect header check")
      else if bool_decide (Z.land cmf_n 15 ≠ 8)
      then Raise (zlib_error "unknown compression method")
      else if bool_decide (wbits < Z.shiftr cmf_n 4 + 8)
      then Raise (zlib_error "invalid window size")
      else if bool_decide (Z.land flg_n 32 ≠ 0)
      then
        if decide (length body < 4)%nat then Ok []
        else Raise (Foreign "zlib.error" "Error 2 while decompressing data")
      else
        match inflate_raw body with
        | DataError msg => Raise (zlib_error msg)
        | NeedsInput output => Ok output
        | StreamEnd output (a :: b :: c :: d :: _) =>
            if bool_decide (of_digits 256 (Byte.to_N <$> [a; b; c; d]) ≠ adler32 output)
            then Raise (zlib_error "incorrect data check")
            else Ok output
        | StreamEnd output _ => Ok output
        end
  | _ => Ok []
  end.

(** [data] is a zlib stream, as far as it goes, that inflates to [output]:
    nothing yet of the header and no output; or a header of method 8, a
    window of at most [2 ^ wbits] and a check value that makes the two bytes
    a multiple of 31, followed either, when the header announces a preset
    dictionary, by less than the four bytes of its identifier, with no
    output; or, when it announces none, by DEFLATE data that the decoder
    brings to [output], and, once the final block and four more bytes are
    there, by the Adler-32 of [output]. *)
Definition zlib_stream_of (inflate_raw : bytes -> Inflated) (wbits : Z)
    (data output : bytes) : Prop :=
  ((length data < 2)%nat /\ output = []) \/
  exists cmf flg body,
    data = cmf :: flg :: body /\
    (Z.of_N (Byte.to_N cmf) * 256 + Z.of_N (Byte.to_N flg)) mod 31 = 0 /\
    Z.land (Z.of_N (Byte.to_N cmf)) 15 = 8 /\
    Z.shiftr (Z.of_N (Byte.to_N cmf)) 4 + 8 <= wbits /\
    ((Z.land (Z.of_N (Byte.to_N flg)) 32 ≠ 0 /\ (length body < 4)%nat /\ output = []) \/
     (Z.land (Z.of_N (Byte.to_N flg)) 32 = 0 /\
      (inflate_raw body = NeedsInput output \/
       exists rest,
         inflate_raw body = StreamEnd output rest /\
         ((length rest < 4)%nat \/
          of_digits 256 (Byte.to_N <$> take 4 rest) = adler32 output)))).

(** The same call for [wbits] in -15..-9: DEFLATE data with no header and
    no trailer. *)
Definition raw_decompress (inflate_raw : bytes -> Inflated) (data : bytes) :
    Result bytes :=
  match inflate_raw data with
  | DataError msg => Raise (zlib_error msg)
  | NeedsInput output => Ok output
  | StreamEnd output _ => Ok output
  end.

(** [decompress.flush()] after an unbounded [decompress]: nothing is left. *)
Definition decompressobj_flush : bytes := [].

(** ** The schema *)

(** Modelled from the spec: the classes of [anchorpy.idl], which is not
    among the sources.  The spec's data model gives an instruction a name,
    typed arguments and account roles; an account type a name and typed
    fields; an error a numeric code, a name and an optional message. *)
Record IdlField : Type := mkIdlField {
  field_name : string;
  field_type : string
}.

Record IdlAccountItem : Type := mkIdlAccountItem {
  role_name : string;
  role_is_mut : bool;
  role_is_signer : bool
}.

Record IdlInstruction : Type := mkIdlInstruction {
  ix_name : string;
  ix_args : list IdlField;
  ix_accounts : list IdlAccountItem
}.

Record IdlTypeDef : Type := mkIdlTypeDef {
  typedef_name : string;
  typedef_fields : list IdlField
}.

Record IdlErrorCode : Type := mkIdlErrorCode {
  err_code : Z;
  err_name : string;
  err_msg : option string
}.

Record Idl : Type := mkIdl {
  idl_instructions : list IdlInstruction;
  idl_accounts : list IdlTypeDef;
  idl_types : list IdlTypeDef;
  idl_errors : list IdlErrorCode
}.

#[global] Instance IdlField_eq_dec : EqDecision IdlField.
Proof. solve_decision. Defined.
#[global] Instance IdlAccountItem_eq_dec : EqDecision IdlAccountItem.
Proof. solve_decision. Defined.
#[global] Instance IdlInstruction_eq_dec : EqDecision IdlInstruction.
Proof. solve_decision. Defined.

(** What [decode_idl_account] of [anchorpy.idl] returns, as far as
    [fetch_idl] reads it: the field [idl_account["data"]]. *)
Record IdlProgramAccount : Type := mkIdlProgramAccount {
  idl_data : bytes
}.

(** A parsed JSON document ([json.loads]). *)
#[warnings="-register-all"]
Inductive Json : Type :=
| JNull
| JBool (b : bool)
| JNumber (z : Z)
| JString (s : string)
| JArray (items : list Json)
| JObject (members : list (string * Json)).

(** [anchorpy.coder.coder.Coder], as far as the two modules use it:
    [coder.instruction.build] and [coder.accounts.decode]. *)
Record Coder : Type := mkCoder {
  instruction_build : string -> list Value -> Foreign_result bytes;
  accounts_decode : bytes -> Result Container
}.

(** Modelled from the spec: [ACCOUNT_DISCRIMINATOR_SIZE] of
    [anchorpy.coder.accounts], which is not among the sources; the spec fixes
    the discriminator at 8 bytes. *)
Definition ACCOUNT_DISCRIMINATOR_SIZE : Z := 8.

(** Modelled from the spec: [class InstructionFn] of
    [anchorpy.program.namespace.instruction], which is not among the
    sources.  The instruction builder is made from a definition, the
    instruction coder's [build] and the program address, and it is one
    instance that the other handles of its name share: the record keeps the
    three arguments of [InstructionFn(idl_ix, encode_fn, program_id)] and,
    as [ixfn_object], the identity of the Python object (its allocation
    number), so that two builders made from equal definitions remain two
    instances. *)
Record InstructionFn : Type := mkInstructionFn {
  ixfn_object : nat;
  ixfn_idl_ix : IdlInstruction;
  ixfn_encode_fn : string -> list Value -> Foreign_result bytes;
  ixfn_program_id : PublicKey
}.

(** [class AccountClient] and the dataclass [ProgramAccount] of
    [namespace/account.py]. *)
Record AccountClient : Type := mkAccountClient {
  _idl_account : IdlTypeDef;
  _program_id : PublicKey;
  _provider : Provider;
  _coder : Coder;
  _size : Z
}.

Record ProgramAccount : Type := mkProgramAccount {
  public_key : PublicKey;
  account : Container
}.

(** ** Sample collaborators

    Concrete stand-ins for the collaborators, for the examples at the end:
    a base-64 decoder for canonical input, a DEFLATE decoder for stored
    blocks, a name tag in place of the discriminator hash, a coder for one
    account type [Counter { count: u64 }], and a transport that serves a
    handful of accounts. *)

Definition b64_alphabet : bytes :=
  String.list_byte_of_string
    "ABCDEFGHIJKLMNOPQRSTUVWXYZabcdefghijklmnopqrstuvwxyz0123456789+/".

Definition b64_pad : byte := "="%byte.

Definition b64_sextet (c : byte) : option N := N.of_nat <$> index_of c b64_alphabet.

Fixpoint b64_groups (cs : bytes) : option bytes :=
  match cs with
  | [] => Some []
  | a :: b :: c :: d :: rest =>
      x ← b64_sextet a;
      y ← b64_sextet b;
      if decide (c = b64_pad /\ d = b64_pad /\ rest = [])
      then Some [byte_of_N ((x * 64 + y) / 16)%N]
      else
        z ← b64_sextet c;
        if decide (d = b64_pad /\ rest = [])
        then
          let n := ((x * 64 + y) * 64 + z)%N in
          Some [byte_of_N (n / 1024)%N; byte_of_N ((n / 4) mod 256)%N]
        else
          w ← b64_sextet d;
          tail ← b64_groups rest;
          let n := (((x * 64 + y) * 64 + z) * 64 + w)%N in
          Some (byte_of_N (n / 65536)%N :: byte_of_N ((n / 256) mod 256)%N ::
                byte_of_N (n mod 256)%N :: tail)
  | _ => None
  end.

Definition sample_b64decode (s : string) : Foreign_result bytes :=
  match b64_groups (String.list_byte_of_string s) with
  | Some decoded => inr decoded
  | None => inl ("binascii.Error", "Incorrect padding")
  end.

(** A DEFLATE decoder for streams of stored blocks (block type 0): one
    header byte, [LEN] and its complement, then [LEN] literal bytes. *)
Fixpoint inflate_stored_loop (fuel : nat) (input output : bytes) : Inflated :=
  match fuel with
  | O => NeedsInput output
  | S fuel' =>
      match input with
      | hdr :: l0 :: l1 :: n0 :: n1 :: rest =>
          let h := Byte.to_N hdr in
          if (N.land (N.shiftr h 1) 3 =? 0)%N then
            let len := (Byte.to_N l0 + 256 * Byte.to_N l1)%N in
            let nlen := (Byte.to_N n0 + 256 * Byte.to_N n1)%N in
            if (len + nlen =? 65535)%N then
              if (N.of_nat (length rest) <? len)%N then NeedsInput (output ++ rest)
              else
                let output' := output ++ take (N.to_nat len) rest in
                if N.odd h then StreamEnd output' (drop (N.to_nat len) rest)
                else inflate_stored_loop fuel' (drop (N.to_nat len) rest) output'
            else DataError "invalid stored block lengths"
          else if (N.land (N.shiftr h 1) 3 =? 3)%N then DataError "invalid block type"
          else DataError "compressed block"
      | _ => NeedsInput output
      end
  end.

Definition inflate_stored (input : bytes) : Inflated :=
  inflate_stored_loop (S (length input)) input [].

(** The name, cut or zero-padded to 8 bytes. *)
Definition sample_discriminator (name : string) : bytes :=
  take 8 (String.list_byte_of_string name ++ replicate 8 x00).

(** Little-endian unsigned integer. *)
Definition le_uint (bs : bytes) : Z := Z.of_N (of_digits 256 (Byte.to_N <$> rev bs)).

Fixpoint le_bytes (width : nat) (n : N) : bytes :=
  match width with
  | O => []
  | S width' => byte_of_N (n mod 256)%N :: le_bytes width' (n / 256)%N
  end.

(** [Counter { count: u64 }] behind its 8-byte discriminator. *)
Definition sample_accounts_decode (data : bytes) : Result Container :=
  let body := drop 8 data in
  if decide (length body < 8)%nat
  then Raise (Foreign "StreamError" "stream read less than specified amount")
  else Ok [("count", VInt (le_uint (take 8 body)))].

Definition sample_coder : Coder :=
  {| instruction_build := fun name _ => inr (sample_discriminator name);
     accounts_decode := sample_accounts_decode |}.

Definition sample_account_size (idl : Idl) (idl_account : IdlTypeDef) : Z :=
  foldr (fun f acc =>
           (if decide (field_type f = "u64") then 8
            else if decide (field_type f = "publicKey") then 32
            else if decide (field_type f = "u32") then 4
            else 1) + acc)
        0 (typedef_fields idl_account).

Definition system_program_id : PublicKey := mkPublicKey (replicate 32 x00).

(** [SystemProgram.CreateAccount]: instruction index 0, then lamports, space
    and owner; the two integers are unsigned 64-bit fields. *)
Definition sample_create_account (params : CreateAccountParams) :
    Foreign_result TransactionInstruction :=
  if decide (0 <= lamports params < 2 ^ 64 /\ 0 <= space params < 2 ^ 64)
  then
    inr {| ti_keys := [ {| meta_pubkey := from_pubkey params;
                           meta_is_signer := true; meta_is_writable := true |};
                        {| meta_pubkey := new_account_pubkey params;
                           meta_is_signer := true; meta_is_writable := true |} ];
           ti_program_id := system_program_id;
           ti_data := le_bytes 4 0 ++ le_bytes 8 (Z.to_N (lamports params)) ++
                      le_bytes 8 (Z.to_N (space params)) ++
                      key_bytes (cap_program_id params) |}
  else inl ("FormatFieldError", "integer out of range for an unsigned 64-bit field").

Definition sample_PublicKey_of_str (s : string) : Foreign_result PublicKey :=
  match b58decode (String.list_byte_of_string s) with
  | Some key =>
      if decide (length key = 32%nat) then inr (mkPublicKey key)
      else inl ("ValueError", "invalid public key input")
  | None => inl ("ValueError", "invalid public key input")
  end.

Definition sample_account (payload : string) : AccountInfoValue :=
  {| account_data := [payload; "base64"] |}.

(** Two counters, an account of another type, a three-byte account; any
    other address holds nothing. *)
Definition sample_get_account_info (address : AddressType) (_ : option string) :
    Foreign_result (option AccountInfoValue) :=
  match address with
  | AddressStr "counter42" => inr (Some (sample_account "Q291bnRlcgAqAAAAAAAAAA=="))
  | AddressStr "counter7" => inr (Some (sample_account "Q291bnRlcgAHAAAAAAAAAA=="))
  | AddressStr "vault" => inr (Some (sample_account "VmF1bHQAAAAqAAAAAAAAAA=="))
  | AddressStr "short" => inr (Some (sample_account "AQID"))
  | _ => inr None
  end.

(** Rent: 3480 lamports per byte and year, two years, 128 bytes of
    overhead. *)
Definition sample_rent (usize : Z) : Foreign_result Z := inr ((128 + usize) * 6960).

Definition sample_get_program_accounts (_ : PublicKey) (_ : string) (_ : option string)
    (_ : option Z) (_ : list MemcmpOpts) : Foreign_result (list KeyedAccount) :=
  inr [ {| keyed_pubkey := "11111111111111111111111111111113";
           keyed_account := sample_account "Q291bnRlcgAqAAAAAAAAAA==" |};
        {| keyed_pubkey := "11111111111111111111111111111114";
           keyed_account := sample_account "Q291bnRlcgAHAAAAAAAAAA==" |} ].

Definition sample_connection : Connection :=
  {| get_account_info := sample_get_account_info;
     get_minimum_balance_for_rent_exemption := sample_rent;
     get_program_accounts := sample_get_program_accounts;
     _commitment := Some "confirmed" |}.

Definition sample_wallet_key : PublicKey := mkPublicKey (replicate 31 x00 ++ [x05]).
Definition sample_program_key : PublicKey := mkPublicKey (replicate 31 x00 ++ [x02]).
Definition sample_signer : Keypair := mkKeypair (mkPublicKey (replicate 31 x00 ++ [x09])).

Definition sample_provider : Provider :=
  {| connection := sample_connection; wallet := {| wallet_public_key := sample_wallet_key |} |}.

(** The provider [Provider.local()] stands for in the examples: another
    wallet on the same connection. *)
Definition sample_local_provider : Provider :=
  {| connection := sample_connection;
     wallet := {| wallet_public_key := mkPublicKey (replicate 31 x00 ++ [x06]) |} |}.

Definition Counter_typedef : IdlTypeDef :=
  {| typedef_name := "Counter"; typedef_fields := [mkIdlField "count" "u64"] |}.

Definition initialize_ix : IdlInstruction :=
  {| ix_name := "initialize"; ix_args := [];
     ix_accounts := [mkIdlAccountItem "counter" true false] |}.

Definition increment_ix : IdlInstruction :=
  {| ix_name := "increment"; ix_args := [mkIdlField "by" "u64"];
     ix_accounts := [mkIdlAccountItem "counter" true false] |}.

(** A second definition under the name [initialize]. *)
Definition initialize_again_ix : IdlInstruction :=
  {| ix_name := "initialize"; ix_args := [mkIdlField "start" "u64"];
     ix_accounts := [mkIdlAccountItem "counter" true false] |}.

Definition sample_idl : Idl :=
  {| idl_instructions := [initialize_ix; increment_ix];
     idl_accounts := [Counter_typedef];
     idl_types := [];
     idl_errors := [mkIdlErrorCode 6000 "Unauthorized" (Some "Unauthorized")] |}.

Definition duplicate_idl : Idl :=
  {| idl_instructions := [initialize_ix; increment_ix; initialize_again_ix];
     idl_accounts := [Counter_typedef];
     idl_types := [];
     idl_errors := [] |}.

(** The client of [Counter] accounts, as [AccountClient.__init__] makes it
    from the sample schema, and the payloads the sample transport serves. *)
Definition sample_client : AccountClient :=
  {| _idl_account := Counter_typedef;
     _program_id := sample_program_key;
     _provider := sample_provider;
     _coder := sample_coder;
     _size := ACCOUNT_DISCRIMINATOR_SIZE + sample_account_size sample_idl Counter_typedef |}.

Definition counter42_data : bytes :=
  String.list_byte_of_string "Counter" ++ [x00] ++ le_bytes 8 42.

Definition counter7_data : bytes :=
  String.list_byte_of_string "Counter" ++ [x00] ++ le_bytes 8 7.

Definition vault_data : bytes :=
  String.list_byte_of_string "Vault" ++ [x00; x00; x00] ++ le_bytes 8 42.

(** A transport whose second record is cut short inside the [count] field. *)
Definition truncated_connection : Connection :=
  {| get_account_info := sample_get_account_info;
     get_minimum_balance_for_rent_exemption := sample_rent;
     get_program_accounts := fun _ _ _ _ _ =>
       inr [ {| keyed_pubkey := "11111111111111111111111111111113";
                keyed_account := sample_account "Q291bnRlcgAqAAAAAAAAAA==" |};
             {| keyed_pubkey := "11111111111111111111111111111114";
                keyed_account := sample_account "Q291bnRlcgAqAA==" |};
             {| keyed_pubkey := "11111111111111111111111111111115";
                keyed_account := sample_account "Q291bnRlcgAHAAAAAAAAAA==" |} ];
     _commitment := Some "confirmed" |}.

Definition truncated_client : AccountClient :=
  {| _idl_account := Counter_typedef;
     _program_id := sample_program_key;
     _provider := {| connection := truncated_connection;
                     wallet := {| wallet_public_key := sample_wallet_key |} |};
     _coder := sample_coder;
     _size := ACCOUNT_DISCRIMINATOR_SIZE + sample_account_size sample_idl Counter_typedef |}.

(** Handles that are the record of what they were built from. *)
Definition sample_build_transaction_fn (idl_ix : IdlInstruction) (ix_fn : InstructionFn) :
    IdlInstruction * InstructionFn := (idl_ix, ix_fn).

Definition sample_build_rpc_item (idl_ix : IdlInstruction)
    (tx_fn : IdlInstruction * InstructionFn) (idl_errors : gmap Z string)
    (provider : Provider) :
    IdlInstruction * (IdlInstruction * InstructionFn) * gmap Z string * Provider :=
  (idl_ix, tx_fn, idl_errors, provider).

Definition sample_build_simulate_item (idl_ix : IdlInstruction)
    (tx_fn : IdlInstruction * InstructionFn) (idl_errors : gmap Z string)
    (provider : Provider) (coder : Coder) (program_id : PublicKey) (idl : Idl) :
    IdlInstruction * (IdlInstruction * InstructionFn) * gmap Z string * PublicKey :=
  (idl_ix, tx_fn, idl_errors, program_id).

Definition sample_build_types (idl : Idl) : gmap string IdlTypeDef :=
  list_to_map ((fun t => (typedef_name t, t)) <$> idl_types idl).

(** A stored-block DEFLATE stream of the two characters of the empty JSON
    object, and the same stream inside a zlib container. *)
Definition raw_deflate_empty_object : bytes :=
  [x01; x02; x00; xfd; xff; "{"%byte; "}"%byte].

Definition zlib_empty_object : bytes :=
  [x78; x01] ++ raw_deflate_empty_object ++ [x01; x75; x00; xf9].

(** A schema whose error table declares the code 6000 twice, the second
    time with an empty message, and the code 6001 with no message. *)
Definition errors_idl : Idl :=
  {| idl_instructions := [initialize_ix];
     idl_accounts := [Counter_typedef];
     idl_types := [];
     idl_errors := [ mkIdlErrorCode 6000 "Unauthorized" (Some "You are not authorized");
                     mkIdlErrorCode 6001 "Overflow" None;
                     mkIdlErrorCode 6002 "Paused" (Some "The program is paused");
                     mkIdlErrorCode 6000 "Forbidden" (Some "") ] |}.

(** A transport that is down for the address [down], answers [garbled] with
    a payload that is not base 64, [hollow] with an empty [data] array and
    [truncated] with a counter cut short inside its field, and refuses the
    rent query and the account search. *)
Definition faulty_get_account_info (address : AddressType) (_ : option string) :
    Foreign_result (option AccountInfoValue) :=
  match address with
  | AddressStr "garbled" => inr (Some (sample_account "Q29"))
  | AddressStr "hollow" => inr (Some {| account_data := [] |})
  | AddressStr "truncated" => inr (Some (sample_account "Q291bnRlcgAqAA=="))
  | AddressStr "counter42" => inr (Some (sample_account "Q291bnRlcgAqAAAAAAAAAA=="))
  | _ => inl ("ConnectError", "All connection attempts failed")
  end.

Definition faulty_connection : Connection :=
  {| get_account_info := faulty_get_account_info;
     get_minimum_balance_for_rent_exemption := fun _ =>
       inl ("ConnectError", "All connection attempts failed");
     get_program_accounts := fun _ _ _ _ _ =>
       inl ("ConnectError", "All connection attempts failed");
     _commitment := None |}.

Definition faulty_client : AccountClient :=
  {| _idl_account := Counter_typedef;
     _program_id := sample_program_key;
     _provider := {| connection := faulty_connection;
                     wallet := {| wallet_public_key := sample_wallet_key |} |};
     _coder := sample_coder;
     _size := ACCOUNT_DISCRIMINATOR_SIZE + sample_account_size sample_idl Counter_typedef |}.

(** Stand-ins for the collaborators of [fetch_idl]: an address is a
    base-58 key or a key; the IDL address of a program is its key with the
    first byte set; an IDL account is a 32-byte authority, a 4-byte
    little-endian length and that many bytes of data; the text is ASCII; and
    the one document the parser and the schema reader know is the empty
    object, which stands for a schema that declares nothing. *)
Definition sample_translate_address (address : AddressType) : Foreign_result PublicKey :=
  match address with
  | AddressStr s => sample_PublicKey_of_str s
  | AddressKey k => inr k
  end.

Definition sample_idl_address (pid : PublicKey) : Foreign_result PublicKey :=
  inr (mkPublicKey (xff :: drop 1 (key_bytes pid))).

Definition sample_decode_idl_account (data : bytes) : Foreign_result IdlProgramAccount :=
  if decide (length data < 36)%nat
  then inl ("StreamError", "stream read less than specified amount")
  else
    let len := Z.to_nat (le_uint (take 4 (drop 32 data))) in
    if decide (length (drop 36 data) < len)%nat
    then inl ("StreamError", "stream read less than specified amount")
    else inr {| idl_data := take len (drop 36 data) |}.

Definition sample_utf8_decode (data : bytes) : Foreign_result string :=
  if decide (Forall (fun b => (Byte.to_N b < 128)%N) data)
  then inr (String.string_of_list_byte data)
  else inl ("UnicodeDecodeError", "invalid start byte").

Definition sample_json_loads (text : string) : Foreign_result Json :=
  if decide (text = "{}") then inr (JObject [])
  else inl ("JSONDecodeError", "Expecting value").

Definition empty_idl : Idl :=
  {| idl_instructions := []; idl_accounts := []; idl_types := []; idl_errors := [] |}.

Definition sample_Idl_from_json (document : Json) : Foreign_result Idl :=
  match document with
  | JObject [] => inr empty_idl
  | _ => inl ("KeyError", "instructions")
  end.

(** A transport that holds one IDL account, at the IDL address of the
    sample program: 8 bytes of discriminator, a zero authority, and the
    zlib stream of the empty object. *)
Definition idl_get_account_info (address : AddressType) (_ : option string) :
    Foreign_result (option AccountInfoValue) :=
  match address with
  | AddressKey k =>
      if decide (k = mkPublicKey (xff :: replicate 30 x00 ++ [x02]))
      then inr (Some (sample_account
             "BwcHBwcHBwcAAAAAAAAAAAAAAAAAAAAAAAAAAAAAAAAAAAAAAAAAAA0AAAB4AQECAP3/e30BdQD5"))
      else inr None
  | AddressStr _ => inr None
  end.

Definition idl_provider : Provider :=
  {| connection := {| get_account_info := idl_get_account_info;
                      get_minimum_balance_for_rent_exemption := sample_rent;
                      get_program_accounts := sample_get_program_accounts;
                      _commitment := Some "confirmed" |};
     wallet := {| wallet_public_key := sample_wallet_key |} |}.

(** Unfold the steps of a [Run] or [Result] computation. *)
Ltac run_unfold :=
  unfold run, mbind, mret, Run_bind, Run_ret, Result_bind, Result_ret,
    bind, ret, call, lift, raise, result_bind.

(** ** The two modules *)

Section Client.

(** The collaborators of [namespace/account.py]: [base64.b64decode],
    [account_discriminator] and [_account_size] of [anchorpy.coder],
    [solana.system_program.create_account], and [PublicKey(text)]. *)
Variable b64decode : string -> Foreign_result bytes.
Variable account_discriminator : string -> bytes.
Variable _account_size : Idl -> IdlTypeDef -> Z.
Variable create_account : CreateAccountParams -> Foreign_result TransactionInstruction.
Variable PublicKey_of_str : string -> Foreign_result PublicKey.

(** The collaborators of [core.py]: [Coder(idl)], [Provider.local()], the
    builders of the other namespace modules with the handles they return,
    [translate_address], [idl_address] and [decode_idl_account], the DEFLATE
    decoder inside [zlib], [bytes.decode()], [json.loads] and
    [Idl.from_json]. *)
Variable Coder_new : Idl -> Coder.
Variable Provider_local : Provider.
Variables TransactionFn RpcFn SimulateFn TypeHandle : Type.
Variable build_transaction_fn : IdlInstruction -> InstructionFn -> TransactionFn.
Variable build_rpc_item :
  IdlInstruction -> TransactionFn -> gmap Z string -> Provider -> RpcFn.
Variable build_simulate_item :
  IdlInstruction -> TransactionFn -> gmap Z string -> Provider -> Coder ->
  PublicKey -> Idl -> SimulateFn.
Variable build_types : Idl -> gmap string TypeHandle.
Variable translate_address : AddressType -> Foreign_result PublicKey.
Variable idl_address : PublicKey -> Foreign_result PublicKey.
Variable decode_idl_account : bytes -> Foreign_result IdlProgramAccount.
Variable inflate_raw : bytes -> Inflated.
Variable utf8_decode : bytes -> Foreign_result string.
Variable json_loads : string -> Foreign_result Json.
Variable Idl_from_json : Json -> Foreign_result Idl.

(** *** [namespace/account.py] *)

(** [AccountClient.__init__]. *)
Definition AccountClient_init (idl : Idl) (idl_account : IdlTypeDef)
    (coder : Coder) (program_id : PublicKey) (provider : Provider) :
    AccountClient :=
  {| _idl_account := idl_account;
     _program_id := program_id;
     _provider := provider;
     _coder := coder;
     _size := ACCOUNT_DISCRIMINATOR_SIZE + _account_size idl idl_account |}.

(** The properties [size], [program_id], [provider], [coder]. *)
Definition AccountClient_size (self : AccountClient) : Z := _size self.
Definition AccountClient_program_id (self : AccountClient) : PublicKey := _program_id self.
Definition AccountClient_provider (self : AccountClient) : Provider := _provider self.
Definition AccountClient_coder (self : AccountClient) : Coder := _coder self.

Definition build_account (idl : Idl) (coder : Coder) (program_id : PublicKey)
    (provider : Provider) : gmap string AccountClient :=
  foldl (fun accounts_fns idl_account =>
           let account_client :=
             AccountClient_init idl idl_account coder program_id provider in
           <[typedef_name idl_account := account_client]> accounts_fns)
        ∅ (idl_accounts idl).

(** [AccountClient.fetch]. *)
Definition fetch (self : AccountClient) (address : AddressType) : Run Container :=
  account_info ← call (GetAccountInfo address (Some "base64"))
    (foreign (get_account_info (connection (_provider self)) address (Some "base64")));
  match account_info with
  | None =>
      raise (AccountDoesNotExistError
               ("Account " +:+ format_address address +:+ " does not exist"))
  | Some value =>
      data ← lift (payload ← item0 (account_data value); foreign (b64decode payload));
      let discriminator := account_discriminator (typedef_name (_idl_account self)) in
      if bool_decide (discriminator ≠ take (Z.to_nat ACCOUNT_DISCRIMINATOR_SIZE) data)
      then
        let msg := "Account " +:+ format_address address +:+ " has an invalid discriminator" in
        raise (AccountInvalidDiscriminator msg)
      else call (AccountsDecode data) (accounts_decode (_coder self) data)
  end.

(** [AccountClient.create_instruction]; [size_override] defaults to 0. *)
Definition create_instruction (self : AccountClient) (signer : Keypair)
    (size_override : Z) : Run TransactionInstruction :=
  let space := if bool_decide (size_override ≠ 0) then size_override else _size self in
  mbre_resp ← call (GetMinimumBalanceForRentExemption space)
    (foreign (get_minimum_balance_for_rent_exemption
                (connection (_provider self)) space));
  lift (foreign (create_account
    {| from_pubkey := wallet_public_key (wallet (_provider self));
       new_account_pubkey := keypair_public_key signer;
       space := space;
       lamports := mbre_resp;
       cap_program_id := _program_id self |})).

(** The filters [AccountClient.all] hands to [get_program_accounts]. *)
Definition full_memcmp_opts (self : AccountClient) (buffer : option bytes)
    (memcmp_opts : option (list MemcmpOpts)) : list MemcmpOpts :=
  let discriminator := account_discriminator (typedef_name (_idl_account self)) in
  let to_encode :=
    match buffer with
    | None => discriminator
    | Some buffer => discriminator ++ buffer
    end in
  let bytes_arg := String.string_of_list_byte (b58encode to_encode) in
  let base_memcmp_opt := {| memcmp_offset := 0; memcmp_bytes := bytes_arg |} in
  let extra_memcmpm_opts :=
    match memcmp_opts with
    | None => []
    | Some memcmp_opts => memcmp_opts
    end in
  [base_memcmp_opt] ++ extra_memcmpm_opts.

(** The body of the loop of [AccountClient.all]: one returned record. *)
Definition decode_record (self : AccountClient) (r : KeyedAccount) : Run ProgramAccount :=
  account_data ← lift (payload ← item0 (account_data (keyed_account r));
                       foreign (b64decode payload));
  key ← lift (foreign (PublicKey_of_str (keyed_pubkey r)));
  decoded ← call (AccountsDecode account_data) (accounts_decode (_coder self) account_data);
  mret {| public_key := key; account := decoded |}.

(** The record [r] of a response decodes to the pair [decoded]: its payload
    is base 64 of some data, its [pubkey] makes the pair's address, and the
    coder decodes the data to the pair's value. *)
Definition record_decodes_to (self : AccountClient) (r : KeyedAccount)
    (decoded : ProgramAccount) : Prop :=
  exists payload rest data,
    account_data (keyed_account r) = payload :: rest /\
    b64decode payload = inr data /\
    PublicKey_of_str (keyed_pubkey r) = inr (public_key decoded) /\
    accounts_decode (_coder self) data = Ok (account decoded).

(** [AccountClient.all]. *)
Definition all (self : AccountClient) (buffer : option bytes)
    (memcmp_opts : option (list MemcmpOpts)) (data_size : option Z) :
    Run (list ProgramAccount) :=
  let filters := full_memcmp_opts self buffer memcmp_opts in
  let commitment := _commitment (connection (AccountClient_provider self)) in
  resp ← call (GetProgramAccounts (_program_id self) "base64" commitment data_size filters)
    (foreign (get_program_accounts (connection (_provider self))
                (_program_id self) "base64" commitment data_size filters));
  for_each (decode_record self) resp.

(** *** [core.py] *)

Definition _parse_idl_errors (idl : Idl) : gmap Z string :=
  foldl (fun errors e =>
           let msg :=
             match err_msg e with
             | Some m => if bool_decide (m ≠ "") then m else err_name e
             | None => err_name e
             end in
           <[err_code e := msg]> errors)
        ∅ (idl_errors idl).

(** The four dictionaries the loop of [_build_namespace] fills, and the
    number of instruction builders allocated so far. *)
Record Namespaces : Type := mkNamespaces {
  ns_rpc : gmap string RpcFn;
  ns_instruction : gmap string InstructionFn;
  ns_transaction : gmap string TransactionFn;
  ns_simulate : gmap string SimulateFn;
  ns_allocated : nat
}.

Definition no_namespaces : Namespaces :=
  {| ns_rpc := ∅; ns_instruction := ∅; ns_transaction := ∅; ns_simulate := ∅;
     ns_allocated := 0 |}.

(** One iteration of [for idl_ix in idl.instructions]. *)
Definition register_instruction (idl : Idl) (coder : Coder) (program_id : PublicKey)
    (provider : Provider) (idl_errors : gmap Z string)
    (ns : Namespaces) (idl_ix : IdlInstruction) : Namespaces :=
  let ix_item :=
    {| ixfn_object := ns_allocated ns;
       ixfn_idl_ix := idl_ix;
       ixfn_encode_fn := instruction_build coder;
       ixfn_program_id := program_id |} in
  let tx_item := build_transaction_fn idl_ix ix_item in
  let rpc_item := build_rpc_item idl_ix tx_item idl_errors provider in
  let simulate_item :=
    build_simulate_item idl_ix tx_item idl_errors provider coder program_id idl in
  let name := ix_name idl_ix in
  {| ns_instruction := <[name := ix_item]> (ns_instruction ns);
     ns_transaction := <[name := tx_item]> (ns_transaction ns);
     ns_rpc := <[name := rpc_item]> (ns_rpc ns);
     ns_simulate := <[name := simulate_item]> (ns_simulate ns);
     ns_allocated := S (ns_allocated ns) |}.

Definition register_instructions (idl : Idl) (coder : Coder) (program_id : PublicKey)
    (provider : Provider) (ixs : list IdlInstruction) (ns : Namespaces) : Namespaces :=
  foldl (register_instruction idl coder program_id provider (_parse_idl_errors idl))
        ns ixs.

(** The four handles [_build_namespace] makes for the definition [idl_ix]
    when [object] builders were allocated before. *)
Definition ix_item_of (coder : Coder) (program_id : PublicKey) (object : nat)
    (idl_ix : IdlInstruction) : InstructionFn :=
  {| ixfn_object := object;
     ixfn_idl_ix := idl_ix;
     ixfn_encode_fn := instruction_build coder;
     ixfn_program_id := program_id |}.

Definition tx_item_of (ix_item : InstructionFn) : TransactionFn :=
  build_transaction_fn (ixfn_idl_ix ix_item) ix_item.

Definition rpc_item_of (idl : Idl) (provider : Provider) (ix_item : InstructionFn) : RpcFn :=
  build_rpc_item (ixfn_idl_ix ix_item) (tx_item_of ix_item)
    (_parse_idl_errors idl) provider.

Definition simulate_item_of (idl : Idl) (coder : Coder) (program_id : PublicKey)
    (provider : Provider) (ix_item : InstructionFn) : SimulateFn :=
  build_simulate_item (ixfn_idl_ix ix_item) (tx_item_of ix_item)
    (_parse_idl_errors idl) provider coder program_id idl.

(** Under every name, the four dictionaries hold handles made around one
    and the same instruction builder, whose definition declares that name;
    or none of them has the name. *)
Definition aligned (idl : Idl) (coder : Coder) (program_id : PublicKey)
    (provider : Provider) (ns : Namespaces) : Prop :=
  forall name,
    match ns_instruction ns !! name with
    | Some ix_item =>
        ix_name (ixfn_idl_ix ix_item) = name /\
        ns_transaction ns !! name = Some (tx_item_of ix_item) /\
        ns_rpc ns !! name = Some (rpc_item_of idl provider ix_item) /\
        ns_simulate ns !! name = Some (simulate_item_of idl coder program_id provider ix_item)
    | None =>
        ns_transaction ns !! name = None /\
        ns_rpc ns !! name = None /\
        ns_simulate ns !! name = None
    end.

(** [_build_namespace]: the tuple
    [(rpc, instruction, transaction, account, simulate, types)]. *)
Definition _build_namespace (idl : Idl) (coder : Coder) (program_id : PublicKey)
    (provider : Provider) :
    gmap string RpcFn * gmap string InstructionFn * gmap string TransactionFn *
    gmap string AccountClient * gmap string SimulateFn * gmap string TypeHandle :=
  let ns := register_instructions idl coder program_id provider
              (idl_instructions idl) no_namespaces in
  let account :=
    match idl_accounts idl with
    | [] => ∅
    | _ :: _ => build_account idl coder program_id provider
    end in
  let types := build_types idl in
  (ns_rpc ns, ns_instruction ns, ns_transaction ns, account, ns_simulate ns, types).

(** [_pako_inflate]. *)
Definition _pako_inflate (data : bytes) : Result bytes :=
  decompressed_data ← zlib_decompress inflate_raw 15 data;
  mret (decompressed_data ++ decompressobj_flush).

Record Program : Type := mkProgram {
  program_idl : Idl;
  program_program_id : PublicKey;
  program_provider : Provider;
  program_coder : Coder;
  program_rpc : gmap string RpcFn;
  program_instruction : gmap string InstructionFn;
  program_transaction : gmap string TransactionFn;
  program_account : gmap string AccountClient;
  program_simulate : gmap string SimulateFn;
  program_type : gmap string TypeHandle
}.

(** [Program.__init__]; [provider] is [Optional[Provider] = None]. *)
Definition Program_init (idl : Idl) (program_id : PublicKey)
    (provider : option Provider) : Program :=
  let self_provider :=
    match provider with
    | Some provider => provider
    | None => Provider_local
    end in
  let self_coder := Coder_new idl in
  let '(rpc, instruction, transaction, account, simulate, types) :=
    _build_namespace idl self_coder program_id self_provider in
  {| program_idl := idl;
     program_program_id := program_id;
     program_provider := self_provider;
     program_coder := self_coder;
     program_rpc := rpc;
     program_instruction := instruction;
     program_transaction := transaction;
     program_account := account;
     program_simulate := simulate;
     program_type := types |}.

(** What [Program.fetch_idl] does with the account it found. *)
Definition inflate_idl_account (value : AccountInfoValue) : Result Idl :=
  payload ← item0 (account_data value);
  decoded ← foreign (b64decode payload);
  idl_account ← foreign (decode_idl_account
                           (drop (Z.to_nat ACCOUNT_DISCRIMINATOR_SIZE) decoded));
  inflated ← _pako_inflate (idl_data idl_account);
  inflated_idl ← foreign (utf8_decode inflated);
  document ← foreign (json_loads inflated_idl);
  foreign (Idl_from_json document).

(** [Program.fetch_idl]. *)
Definition fetch_idl (address : AddressType) (provider : option Provider) : Run Idl :=
  program_id ← lift (foreign (translate_address address));
  let actual_provider :=
    match provider with
    | Some provider => provider
    | None => Provider_local
    end in
  idl_addr ← lift (foreign (idl_address program_id));
  account_info_val ← call (GetAccountInfo (AddressKey idl_addr) None)
    (foreign (get_account_info (connection actual_provider) (AddressKey idl_addr) None));
  match account_info_val with
  | None =>
      raise (IdlNotFoundError ("IDL not found for program: " +:+ format_address address))
  | Some value => lift (inflate_idl_account value)
  end.

(** [Program.at]. *)
Definition Program_at (address : AddressType) (provider : option Provider) : Run Program :=
  program_id ← lift (foreign (translate_address address));
  idl ← fetch_idl (AddressKey program_id) provider;
  mret (Program_init idl program_id provider).

(** * Properties *)

(** ** Numerals and base 58 *)

Section digits.
Variable base : N.
Hypothesis base_ge_2 : (2 <= base)%N.

Lemma of_digits_snoc ds d :
  of_digits base (ds ++ [d]) = (of_digits base ds * base + d)%N.
Proof. unfold of_digits. rewrite fold_left_app. reflexivity. Qed.

Lemma to_digits_loop_spec fuel : forall i acc,
  (i < 2 ^ N.of_nat fuel)%N ->
  exists ds, to_digits_loop base fuel i acc = ds ++ acc /\
             of_digits base ds = i /\ canonical base ds.
Proof.
  induction fuel as [|fuel IH]; intros i acc Hi.
  - exists []. change (2 ^ N.of_nat 0)%N with 1%N in Hi.
    assert (i = 0%N) by lia. subst i. repeat split; [constructor | discriminate].
  - cbn [to_digits_loop]. destruct (N.eqb_spec i 0) as [->|Hnz].
    + exists []. repeat split; [constructor | discriminate].
    + destruct (IH (i / base)%N ((i mod base)%N :: acc)) as (ds & Hloop & Hval & Hall & Hhd).
      { rewrite Nat2N.inj_succ, N.pow_succ_r' in Hi.
        apply N.Div0.div_lt_upper_bound.
        apply N.lt_le_trans with (2 * 2 ^ N.of_nat fuel)%N; [exact Hi|].
        apply N.mul_le_mono_r. exact base_ge_2. }
      exists (ds ++ [(i mod base)%N]). split; [|split; [|split]].
      * rewrite Hloop, <- app_assoc. reflexivity.
      * rewrite of_digits_snoc, Hval.
        rewrite (N.div_mod i base) at 3 by lia. lia.
      * apply Forall_app. split; [exact Hall|].
        constructor; [|constructor]. apply N.mod_lt. lia.
      * destruct ds as [|d ds]; cbn in *.
        -- unfold of_digits in Hval. cbn in Hval.
           intros [= Heq]. apply Hnz.
           rewrite (N.div_mod i base) by lia. rewrite <- Hval, Heq. lia.
        -- exact Hhd.
Qed.

Lemma to_digits_spec i :
  of_digits base (to_digits base i) = i /\ canonical base (to_digits base i).
Proof.
  unfold to_digits.
  destruct (to_digits_loop_spec (N.to_nat (N.size i)) i []) as (ds & Hloop & Hval & Hcan).
  { rewrite N2Nat.id. apply N.size_gt. }
  rewrite Hloop, app_nil_r. split; assumption.
Qed.

Lemma canonical_pos d ds : canonical base (d :: ds) -> (0 < of_digits base (d :: ds))%N.
Proof.
  intros [Hall Hhd]. cbn in Hhd.
  assert (Hd : (0 < d)%N) by (destruct d; [congruence | lia]).
  clear Hall Hhd. revert d Hd.
  induction ds as [|x ds IH] using rev_ind; intros d Hd.
  - unfold of_digits. cbn. lia.
  - rewrite app_comm_cons, of_digits_snoc. specialize (IH d Hd). nia.
Qed.

Lemma canonical_snoc_inv ds d : canonical base (ds ++ [d]) -> canonical base ds /\ (d < base)%N.
Proof.
  intros [Hall Hhd]. apply Forall_app in Hall as [Hall Hd].
  inversion Hd; subst. split; [split; [exact Hall|]|assumption].
  destruct ds; [discriminate | exact Hhd].
Qed.

Lemma canonical_unique : forall xs ys,
  canonical base xs -> canonical base ys -> of_digits base xs = of_digits base ys -> xs = ys.
Proof.
  induction xs as [|x xs IH] using rev_ind; intros ys Hx Hy Heq.
  - destruct ys as [|y ys]; [reflexivity|].
    pose proof (canonical_pos _ _ Hy) as Hpos.
    rewrite <- Heq in Hpos. unfold of_digits in Hpos. cbn in Hpos. lia.
  - destruct ys as [|y ys _] using rev_ind.
    + destruct (xs ++ [x]) as [|x0 l] eqn:E; [destruct xs; discriminate|].
      pose proof (canonical_pos _ _ Hx) as Hpos. rewrite Heq in Hpos.
      unfold of_digits in Hpos. cbn in Hpos. lia.
    + apply canonical_snoc_inv in Hx as [Hx Hxb].
      apply canonical_snoc_inv in Hy as [Hy Hyb].
      rewrite !of_digits_snoc in Heq.
      assert (Hq : of_digits base xs = of_digits base ys).
      { assert (H1 : ((of_digits base xs * base + x) / base = of_digits base xs)%N).
        { rewrite N.div_add_l by lia.
          rewrite N.div_small by assumption. lia. }
        assert (H2 : ((of_digits base ys * base + y) / base = of_digits base ys)%N).
        { rewrite N.div_add_l by lia.
          rewrite N.div_small by assumption. lia. }
        rewrite <- H1, <- H2, Heq. reflexivity. }
      rewrite (IH ys Hx Hy Hq). f_equal. f_equal. rewrite Hq in Heq. lia.
Qed.

Lemma to_digits_of_digits ds :
  canonical base ds -> to_digits base (of_digits base ds) = ds.
Proof.
  intros Hc. destruct (to_digits_spec (of_digits base ds)) as [Hval Hcan].
  apply canonical_unique; assumption.
Qed.
End digits.

Lemma lstrip_head {A} `{EqDecision A} (x : A) (l : list A) :
  head (lstrip x l) <> Some x.
Proof.
  induction l as [|y l IH]; cbn; [discriminate|].
  destruct (decide (y = x)) as [->|Hne]; [exact IH|].
  cbn. congruence.
Qed.

Lemma lstrip_length {A} `{EqDecision A} (x : A) (l : list A) :
  (length (lstrip x l) <= length l)%nat.
Proof.
  induction l as [|y l IH]; cbn; [lia|].
  destruct (decide (y = x)); cbn; lia.
Qed.

Lemma lstrip_replicate {A} `{EqDecision A} (x : A) (l : list A) :
  replicate (length l - length (lstrip x l)) x ++ lstrip x l = l.
Proof.
  induction l as [|y l IH]; cbn [lstrip]; [reflexivity|].
  destruct (decide (y = x)) as [->|Hne].
  - pose proof (lstrip_length x l).
    replace (length (x :: l) - length (lstrip x l))%nat
      with (S (length l - length (lstrip x l))) by (cbn [length]; lia).
    cbn [replicate app]. rewrite IH. reflexivity.
  - rewrite Nat.sub_diag. reflexivity.
Qed.

Lemma lstrip_app_replicate {A} `{EqDecision A} (x : A) n (l : list A) :
  head l <> Some x -> lstrip x (replicate n x ++ l) = l.
Proof.
  intros Hl. induction n as [|n IH]; cbn.
  - destruct l as [|y l]; [reflexivity|]. cbn.
    destruct (decide (y = x)) as [->|]; [exfalso; apply Hl; reflexivity | reflexivity].
  - destruct (decide (x = x)); [exact IH | congruence].
Qed.

Lemma b58_alphabet_table :
  forallb (fun n => bool_decide
             (index_of (b58_char (N.of_nat n)) b58_alphabet = Some n /\
              (b58_char (N.of_nat n) = b58_char 0 -> n = 0%nat)))
          (seq 0 58) = true.
Proof. vm_compute. reflexivity. Qed.

Lemma b58_char_index d :
  (d < 58)%N ->
  index_of (b58_char d) b58_alphabet = Some (N.to_nat d) /\
  (b58_char d = b58_char 0 -> d = 0%N).
Proof.
  intros Hd. pose proof b58_alphabet_table as Ht.
  rewrite forallb_forall in Ht. specialize (Ht (N.to_nat d)).
  rewrite N2Nat.id in Ht.
  assert (Hin : In (N.to_nat d) (seq 0 58)) by (apply in_seq; lia).
  apply Ht in Hin. apply bool_decide_eq_true in Hin as [H1 H2].
  split; [exact H1|]. intros H. apply H2 in H. lia.
Qed.

Lemma b58decode_int_chars ds :
  Forall (fun d => (d < 58)%N) ds ->
  b58decode_int (b58_char <$> ds) = Some (of_digits 58 ds).
Proof.
  unfold b58decode_int, of_digits.
  generalize 0%N as a. induction ds as [|d ds IH]; intros a Hall; [reflexivity|].
  inversion Hall as [|? ? Hd Hds]; subst. cbn [fmap list_fmap foldl fold_left].
  destruct (b58_char_index d Hd) as [Hidx _].
  cbn [mbind option_bind]. rewrite Hidx. cbn [mbind option_bind].
  rewrite N2Nat.id. apply IH. exact Hds.
Qed.

Lemma byte_of_N_to_N b : byte_of_N (Byte.to_N b) = b.
Proof. unfold byte_of_N. rewrite Byte.of_to_N. reflexivity. Qed.

Lemma b58decode_b58encode (v : bytes) : b58decode (b58encode v) = Some v.
Proof.
  unfold b58encode, b58encode_int. fold b58_char.
  set (v' := lstrip x00 v).
  set (acc := of_digits 256 (Byte.to_N <$> v')).
  set (z := (length v - length v')%nat).
  destruct (to_digits_spec 58 ltac:(lia) acc) as [Hval [Hall Hhd]].
  assert (Hhead : head (b58_char <$> to_digits 58 acc) <> Some (b58_char 0)).
  { destruct (to_digits 58 acc) as [|d ds]; [discriminate|]. cbn.
    inversion Hall; subst. intros [= Heq].
    apply b58_char_index in Heq; [|assumption]. subst d. apply Hhd. reflexivity. }
  unfold b58decode. fold (b58_char 0).
  rewrite lstrip_app_replicate by exact Hhead.
  rewrite b58decode_int_chars by exact Hall. cbn [mbind option_bind].
  rewrite Hval. f_equal.
  rewrite length_app, length_replicate.
  replace (z + length (b58_char <$> to_digits 58 acc) - length (b58_char <$> to_digits 58 acc))%nat
    with z by lia.
  subst acc. rewrite to_digits_of_digits; [| lia |].
  - rewrite <- list_fmap_compose.
    replace ((byte_of_N ∘ Byte.to_N) <$> v') with v'; [apply lstrip_replicate|].
    rewrite <- (list_fmap_id v') at 1.
    apply list_fmap_ext. intros i b _. symmetry. apply byte_of_N_to_N.
  - split.
    + apply Forall_fmap, Forall_forall. intros b _. cbn.
      pose proof (Byte.to_N_bounded b). lia.
    + pose proof (lstrip_head x00 v) as Hv. fold v' in Hv.
      destruct v' as [|b l]; [discriminate|]. cbn. intros [= Hb].
      apply Hv. cbn. f_equal.
      rewrite <- (byte_of_N_to_N b), Hb. reflexivity.
Qed.

(** ** The account client *)

(** [fetch] up to the point where the payload is at hand. *)
Lemma fetch_payload (self : AccountClient) (address : AddressType)
    (value : AccountInfoValue) (payload : string) (rest : list string) (data : bytes) :
  get_account_info (connection (_provider self)) address (Some "base64") = inr (Some value) ->
  account_data value = payload :: rest ->
  b64decode payload = inr data ->
  run (fetch self address) =
    if bool_decide (account_discriminator (typedef_name (_idl_account self)) ≠
                    take (Z.to_nat ACCOUNT_DISCRIMINATOR_SIZE) data)
    then (Raise (AccountInvalidDiscriminator
                   ("Account " +:+ format_address address +:+
                    " has an invalid discriminator")),
          [GetAccountInfo address (Some "base64")])
    else (accounts_decode (_coder self) data,
          [GetAccountInfo address (Some "base64"); AccountsDecode data]).
Proof.
  intros Hinfo Hdata Hb64. unfold fetch. run_unfold.
  rewrite Hinfo. cbn [foreign app]. rewrite Hdata. cbn [item0].
  rewrite Hb64. cbn [foreign].
  destruct (bool_decide _); reflexivity.
Qed.

(** C1.  A fetched payload of at least 8 bytes whose first 8 bytes differ
    from the discriminator of the account type makes [fetch] raise
    [AccountInvalidDiscriminator], and the coder's [decode] has not been
    called by then: the only call on record is the transport's.  When the
    first 8 bytes are the discriminator, the payload goes to the coder's
    [decode], whose result is the result of [fetch]. *)
Theorem fetch_checks_discriminator_before_decoding
    (self : AccountClient) (address : AddressType)
    (value : AccountInfoValue) (payload : string) (rest : list string) (data : bytes) :
  get_account_info (connection (_provider self)) address (Some "base64") = inr (Some value) ->
  account_data value = payload :: rest ->
  b64decode payload = inr data ->
  (8 <= length data)%nat ->
  (take 8 data ≠ account_discriminator (typedef_name (_idl_account self)) ->
   run (fetch self address) =
     (Raise (AccountInvalidDiscriminator
               ("Account " +:+ format_address address +:+
                " has an invalid discriminator")),
      [GetAccountInfo address (Some "base64")])) /\
  (take 8 data = account_discriminator (typedef_name (_idl_account self)) ->
   run (fetch self address) =
     (accounts_decode (_coder self) data,
      [GetAccountInfo address (Some "base64"); AccountsDecode data])).
Proof.
  intros Hinfo Hdata Hb64 _.
  rewrite (fetch_payload self address value payload rest data Hinfo Hdata Hb64).
  change (Z.to_nat ACCOUNT_DISCRIMINATOR_SIZE) with 8%nat.
  split; intros Hcmp.
  - rewrite bool_decide_eq_true_2; [reflexivity | congruence].
  - rewrite bool_decide_eq_false_2; [reflexivity | ]. intros Hne. apply Hne. congruence.
Qed.

(** C2, as the code has it.  When the transport reports no value, [fetch]
    raises [AccountDoesNotExistError].  When it returns data shorter than 8
    bytes, the slice [data[:8]] is the whole data, which cannot equal an
    8-byte discriminator: [fetch] raises [AccountInvalidDiscriminator], and
    the coder is not called. *)
Theorem fetch_absent_or_short (self : AccountClient) (address : AddressType) :
  (forall name, length (account_discriminator name) = 8%nat) ->
  (get_account_info (connection (_provider self)) address (Some "base64") = inr None ->
   run (fetch self address) =
     (Raise (AccountDoesNotExistError
               ("Account " +:+ format_address address +:+ " does not exist")),
      [GetAccountInfo address (Some "base64")])) /\
  (forall value payload rest data,
     get_account_info (connection (_provider self)) address (Some "base64") =
       inr (Some value) ->
     account_data value = payload :: rest ->
     b64decode payload = inr data ->
     (length data < 8)%nat ->
     run (fetch self address) =
       (Raise (AccountInvalidDiscriminator
                 ("Account " +:+ format_address address +:+
                  " has an invalid discriminator")),
        [GetAccountInfo address (Some "base64")])).
Proof.
  intros Hlen. split.
  - intros Hinfo. unfold fetch. run_unfold. rewrite Hinfo. reflexivity.
  - intros value payload rest data Hinfo Hdata Hb64 Hshort.
    rewrite (fetch_payload self address value payload rest data Hinfo Hdata Hb64).
    rewrite bool_decide_eq_true_2; [reflexivity|].
    intros Heq. apply (f_equal length) in Heq.
    rewrite Hlen, length_take in Heq. lia.
Qed.

(** The run of [create_instruction], in terms of the space it settles on. *)
Lemma create_instruction_run (self : AccountClient) (signer : Keypair)
    (size_override usize : Z) :
  usize = (if bool_decide (size_override ≠ 0) then size_override else _size self) ->
  run (create_instruction self signer size_override) =
    (match get_minimum_balance_for_rent_exemption (connection (_provider self)) usize with
     | inl (class_name, msg) => Raise (Foreign class_name msg)
     | inr balance =>
         foreign (create_account
           {| from_pubkey := wallet_public_key (wallet (_provider self));
              new_account_pubkey := keypair_public_key signer;
              lamports := balance;
              space := usize;
              cap_program_id := _program_id self |})
     end,
     [GetMinimumBalanceForRentExemption usize]).
Proof.
  intros ->. unfold create_instruction. run_unfold. cbn [app].
  destruct (get_minimum_balance_for_rent_exemption _ _) as [[c m]|balance];
    reflexivity.
Qed.

(** C6.  The size of an account client is 8 plus the layout size of its
    account type.  [create_instruction] takes [size_override] as the space
    when it is not zero and that size otherwise, asks the transport for the
    rent-exempt balance at exactly that space, and returns what
    [create_account] makes of the wallet's key as payer, the signer's key as
    the new address, the space, the balance the transport answered and the
    program address.  The rent query is the only call that leaves the
    client: nothing is submitted. *)
Theorem create_instruction_spec (idl : Idl) (idl_account : IdlTypeDef) (coder : Coder)
    (program_id : PublicKey) (provider : Provider) (signer : Keypair) (size_override : Z) :
  let self := AccountClient_init idl idl_account coder program_id provider in
  let usize :=
    if decide (size_override = 0) then AccountClient_size self else size_override in
  AccountClient_size self = 8 + _account_size idl idl_account /\
  run (create_instruction self signer size_override) =
    (match get_minimum_balance_for_rent_exemption (connection provider) usize with
     | inl (class_name, msg) => Raise (Foreign class_name msg)
     | inr balance =>
         foreign (create_account
           {| from_pubkey := wallet_public_key (wallet provider);
              new_account_pubkey := keypair_public_key signer;
              lamports := balance;
              space := usize;
              cap_program_id := program_id |})
     end,
     [GetMinimumBalanceForRentExemption usize]).
Proof.
  intros self usize. split; [reflexivity|].
  apply (create_instruction_run self signer size_override usize).
  subst usize. unfold AccountClient_size.
  destruct (decide (size_override = 0)) as [->|Hne].
  - rewrite bool_decide_eq_false_2; [reflexivity | intros H; apply H; reflexivity].
  - rewrite bool_decide_eq_true_2; [reflexivity | exact Hne].
Qed.

(** C10, as the code has it.  A negative [size_override] is not zero, so it
    is the space: the rent query is made at the negative value and the
    parameters handed to [create_account] carry it unchanged, with no
    validation or clamping in between.  Whether an instruction comes back is
    then [create_account]'s doing: the call returns what it returns, or
    fails with the rent query's error or with its error. *)
Theorem create_instruction_negative_override (self : AccountClient) (signer : Keypair)
    (size_override : Z) :
  size_override < 0 ->
  run (create_instruction self signer size_override) =
    (match get_minimum_balance_for_rent_exemption
             (connection (_provider self)) size_override with
     | inl (class_name, msg) => Raise (Foreign class_name msg)
     | inr balance =>
         foreign (create_account
           {| from_pubkey := wallet_public_key (wallet (_provider self));
              new_account_pubkey := keypair_public_key signer;
              lamports := balance;
              space := size_override;
              cap_program_id := _program_id self |})
     end,
     [GetMinimumBalanceForRentExemption size_override]).
Proof.
  intros Hneg. apply create_instruction_run.
  rewrite bool_decide_eq_true_2; [reflexivity | lia].
Qed.

(** *** [all]: the filters *)

Lemma decode_record_framed (self : AccountClient) (r : KeyedAccount) :
  framed (decode_record self r).
Proof.
  intros tr. unfold decode_record. run_unfold.
  destruct (item0 (account_data (keyed_account r))) as [payload|e]; cbn;
    [|rewrite app_nil_r; reflexivity].
  destruct (b64decode payload) as [[c m]|data]; cbn;
    [rewrite app_nil_r; reflexivity|].
  destruct (PublicKey_of_str (keyed_pubkey r)) as [[c m]|key]; cbn;
    [rewrite app_nil_r; reflexivity|].
  destruct (accounts_decode (_coder self) data); reflexivity.
Qed.

Lemma for_each_framed {A B : Type} (f : A -> Run B) (xs : list A) :
  (forall x, framed (f x)) -> framed (for_each f xs).
Proof.
  intros Hf. induction xs as [|x xs IH]; intros tr.
  - cbn. unfold run, ret. cbn. rewrite app_nil_r. reflexivity.
  - cbn [for_each]. unfold run. run_unfold.
    rewrite (Hf x tr), (Hf x []). unfold run.
    destruct (f x []) as [[y|e] trx]; cbn [fst snd app]; [|reflexivity].
    rewrite (IH (tr ++ trx)), (IH trx). unfold run.
    destruct (for_each f xs []) as [[ys|e] trxs]; cbn [fst snd];
      rewrite app_assoc; reflexivity.
Qed.

(** C3.  The first call [all] makes is [get_program_accounts], and the list
    of filters it passes starts with a filter at offset 0 whose [bytes]
    field is the base-58 text of [discriminator ++ buffer] when a buffer is
    given and of the bare discriminator when it is not; read back from base
    58, the field is exactly those bytes.  The caller's filters follow the
    base filter in the caller's order. *)
Theorem all_sends_discriminator_filter (self : AccountClient) (buffer : option bytes)
    (memcmp_opts : option (list MemcmpOpts)) (data_size : option Z) :
  let discriminator := account_discriminator (typedef_name (_idl_account self)) in
  let expected := match buffer with
                  | Some b => discriminator ++ b
                  | None => discriminator
                  end in
  exists (base : MemcmpOpts) (later : list Event),
    snd (run (all self buffer memcmp_opts data_size)) =
      GetProgramAccounts (_program_id self) "base64"
        (_commitment (connection (_provider self))) data_size
        (base :: default [] memcmp_opts) :: later /\
    memcmp_offset base = 0 /\
    memcmp_bytes base = String.string_of_list_byte (b58encode expected) /\
    b58decode (String.list_byte_of_string (memcmp_bytes base)) = Some expected.
Proof.
  intros discriminator expected.
  exists {| memcmp_offset := 0;
            memcmp_bytes := String.string_of_list_byte (b58encode expected) |}.
  unfold all. run_unfold. cbn [app].
  set (filters := full_memcmp_opts self buffer memcmp_opts).
  assert (Hfilters : filters =
            {| memcmp_offset := 0;
               memcmp_bytes := String.string_of_list_byte (b58encode expected) |}
            :: default [] memcmp_opts).
  { subst filters expected discriminator. unfold full_memcmp_opts.
    destruct buffer, memcmp_opts; reflexivity. }
  unfold AccountClient_provider.
  destruct (get_program_accounts _ _ _ _ _ _) as [[c m]|resp]; cbn [foreign].
  - exists []. rewrite Hfilters. cbn [snd memcmp_offset memcmp_bytes].
    rewrite String.list_byte_of_string_of_list_byte, b58decode_b58encode.
    repeat split; reflexivity.
  - rewrite (for_each_framed (decode_record self) resp (decode_record_framed self)).
    exists (snd (run (for_each (decode_record self) resp))).
    rewrite Hfilters. cbn [snd app memcmp_offset memcmp_bytes].
    rewrite String.list_byte_of_string_of_list_byte, b58decode_b58encode.
    repeat split; reflexivity.
Qed.

(** *** [all]: the records *)

Lemma decode_record_ok (self : AccountClient) (r : KeyedAccount) (decoded : ProgramAccount) :
  fst (run (decode_record self r)) = Ok decoded <-> record_decodes_to self r decoded.
Proof.
  unfold record_decodes_to, decode_record. run_unfold. split.
  - destruct (account_data (keyed_account r)) as [|payload rest]; cbn; [discriminate|].
    destruct (b64decode payload) as [[c m]|data] eqn:Hb64; cbn; [discriminate|].
    destruct (PublicKey_of_str (keyed_pubkey r)) as [[c m]|key] eqn:Hkey; cbn;
      [discriminate|].
    destruct (accounts_decode (_coder self) data) as [value|e] eqn:Hdec; cbn;
      [|discriminate].
    intros [= <-]. exists payload, rest, data. repeat split; assumption || reflexivity.
  - intros (payload & rest & data & -> & Hb64 & Hkey & Hdec). cbn.
    rewrite Hb64. cbn. rewrite Hkey. cbn. rewrite Hdec. cbn.
    destruct decoded; reflexivity.
Qed.

Lemma for_each_ok {A B : Type} (f : A -> Run B) (xs : list A) (ys : list B) :
  (forall x, framed (f x)) ->
  fst (run (for_each f xs)) = Ok ys <-> Forall2 (fun x y => fst (run (f x)) = Ok y) xs ys.
Proof.
  intros Hf. revert ys. induction xs as [|x xs IH]; intros ys.
  - cbn. split.
    + intros [= <-]. constructor.
    + intros H. inversion H. reflexivity.
  - cbn [for_each]. unfold run in *. run_unfold.
    destruct (f x []) as [[y|e] trx] eqn:Hx; cbn [fst].
    + rewrite (for_each_framed f xs Hf trx). unfold run.
      destruct (for_each f xs []) as [[zs|e] trxs] eqn:Hxs; cbn [fst] in *.
      * split.
        -- intros [= <-]. constructor; [rewrite Hx; reflexivity|]. apply IH. reflexivity.
        -- intros H. inversion H as [|? y' ? zs' Hy Hzs]; subst.
           rewrite Hx in Hy. cbn [fst] in Hy. apply IH in Hzs. congruence.
      * split; [discriminate|].
        intros H. inversion H as [|? y' ? zs' Hy Hzs]; subst.
        apply IH in Hzs. discriminate.
    + split; [discriminate|]. intros H. inversion H as [|? y' ? zs' Hy Hzs]; subst.
      rewrite Hx in Hy. discriminate.
Qed.

Lemma for_each_raise {A B : Type} (f : A -> Run B) (before : list A) (x : A)
    (after : list A) (e : Exception) :
  (forall x, framed (f x)) ->
  Forall (fun x' => exists y, fst (run (f x')) = Ok y) before ->
  fst (run (f x)) = Raise e ->
  fst (run (for_each f (before ++ x :: after))) = Raise e.
Proof.
  intros Hf Hbefore Hx. induction Hbefore as [|x' before [y Hy] _ IH].
  - cbn [app for_each]. unfold run in *. run_unfold.
    destruct (f x []) as [[y|e'] trx]; cbn [fst] in *; congruence.
  - cbn [app for_each]. unfold run in *. run_unfold.
    destruct (f x' []) as [[y'|e'] trx] eqn:Hx'; cbn [fst] in Hy; [|discriminate].
    rewrite (for_each_framed f _ Hf trx). unfold run.
    destruct (for_each f (before ++ x :: after) []) as [[zs|e'] trxs];
      cbn [fst] in *; congruence.
Qed.

(** C8.  Given the records the transport answered, [all] returns a list
    exactly when that list has one pair per record, in the transport's
    order, each the decoding of its record.  When a record fails to decode
    and the records before it decode, the call fails with that record's
    error: no record is skipped and no partial list is returned. *)
Theorem all_decodes_every_record (self : AccountClient) (buffer : option bytes)
    (memcmp_opts : option (list MemcmpOpts)) (data_size : option Z)
    (resp : list KeyedAccount) :
  get_program_accounts (connection (_provider self)) (_program_id self) "base64"
    (_commitment (connection (_provider self))) data_size
    (full_memcmp_opts self buffer memcmp_opts) = inr resp ->
  (forall accounts,
     fst (run (all self buffer memcmp_opts data_size)) = Ok accounts <->
     Forall2 (record_decodes_to self) resp accounts) /\
  (forall before r after e,
     resp = before ++ r :: after ->
     Forall (fun r' => exists decoded, record_decodes_to self r' decoded) before ->
     fst (run (decode_record self r)) = Raise e ->
     fst (run (all self buffer memcmp_opts data_size)) = Raise e).
Proof.
  intros Hresp.
  assert (Hall : fst (run (all self buffer memcmp_opts data_size)) =
                 fst (run (for_each (decode_record self) resp))).
  { unfold all, AccountClient_provider. run_unfold. rewrite Hresp. cbn [foreign app].
    rewrite (for_each_framed (decode_record self) resp (decode_record_framed self)).
    reflexivity. }
  rewrite Hall. split.
  - intros accounts.
    rewrite (for_each_ok (decode_record self) resp accounts (decode_record_framed self)).
    split; intros H; (eapply Forall2_impl; [exact H|]); intros r d Hrd;
      apply decode_record_ok; exact Hrd.
  - intros before r after e -> Hbefore Hr.
    apply for_each_raise; [apply decode_record_framed | | exact Hr].
    eapply Forall_impl; [exact Hbefore|].
    intros r' [d Hd]. exists d. apply decode_record_ok. exact Hd.
Qed.

(** ** The namespace builder *)

Section Namespace.

Variables (idl : Idl) (coder : Coder) (program_id : PublicKey) (provider : Provider).

Local Notation "'step'" :=
  (register_instruction idl coder program_id provider (_parse_idl_errors idl)).
Local Notation "'steps'" := (register_instructions idl coder program_id provider).

Lemma register_instruction_same (ns : Namespaces) (d : IdlInstruction) :
  let ix_item := ix_item_of coder program_id (ns_allocated ns) d in
  ns_instruction (step ns d) !! ix_name d = Some ix_item /\
  ns_transaction (step ns d) !! ix_name d = Some (tx_item_of ix_item) /\
  ns_rpc (step ns d) !! ix_name d = Some (rpc_item_of idl provider ix_item) /\
  ns_simulate (step ns d) !! ix_name d = Some (simulate_item_of idl coder program_id provider ix_item).
Proof.
  cbn. rewrite !lookup_insert_eq. repeat split; reflexivity.
Qed.

Lemma register_instruction_other (ns : Namespaces) (d : IdlInstruction) (name : string) :
  ix_name d ≠ name ->
  ns_instruction (step ns d) !! name = ns_instruction ns !! name /\
  ns_transaction (step ns d) !! name = ns_transaction ns !! name /\
  ns_rpc (step ns d) !! name = ns_rpc ns !! name /\
  ns_simulate (step ns d) !! name = ns_simulate ns !! name.
Proof.
  intros Hne. cbn. rewrite !lookup_insert_ne by exact Hne. repeat split; reflexivity.
Qed.

Lemma register_instruction_aligned (ns : Namespaces) (d : IdlInstruction) :
  aligned idl coder program_id provider ns -> aligned idl coder program_id provider (step ns d).
Proof.
  intros Hns name. destruct (decide (ix_name d = name)) as [<-|Hne].
  - destruct (register_instruction_same ns d) as (-> & -> & -> & ->).
    repeat split; reflexivity.
  - destruct (register_instruction_other ns d name Hne) as (-> & -> & -> & ->).
    apply Hns.
Qed.

Lemma register_instructions_aligned (ixs : list IdlInstruction) (ns : Namespaces) :
  aligned idl coder program_id provider ns -> aligned idl coder program_id provider (steps ixs ns).
Proof.
  revert ns. induction ixs as [|d ixs IH]; intros ns Hns; [exact Hns|].
  apply IH, register_instruction_aligned, Hns.
Qed.

Lemma register_instructions_allocated (ixs : list IdlInstruction) (ns : Namespaces) :
  ns_allocated (steps ixs ns) = (ns_allocated ns + length ixs)%nat.
Proof.
  revert ns. induction ixs as [|d ixs IH]; intros ns; cbn [length].
  - unfold register_instructions. cbn. lia.
  - unfold register_instructions in *. cbn [foldl]. rewrite IH. cbn. lia.
Qed.

Lemma register_instructions_app (xs ys : list IdlInstruction) (ns : Namespaces) :
  steps (xs ++ ys) ns = steps ys (steps xs ns).
Proof. unfold register_instructions. apply foldl_app. Qed.

Lemma register_instructions_dom (ixs : list IdlInstruction) (ns : Namespaces) :
  dom (ns_instruction (steps ixs ns)) =
    dom (ns_instruction ns) ∪ list_to_set (ix_name <$> ixs) /\
  dom (ns_transaction (steps ixs ns)) =
    dom (ns_transaction ns) ∪ list_to_set (ix_name <$> ixs) /\
  dom (ns_rpc (steps ixs ns)) =
    dom (ns_rpc ns) ∪ list_to_set (ix_name <$> ixs) /\
  dom (ns_simulate (steps ixs ns)) =
    dom (ns_simulate ns) ∪ list_to_set (ix_name <$> ixs).
Proof.
  revert ns. induction ixs as [|d ixs IH]; intros ns.
  - unfold register_instructions. cbn.
    rewrite !(right_id_L ∅ (∪)). repeat split; reflexivity.
  - unfold register_instructions in *. cbn [foldl fmap list_fmap].
    destruct (IH (step ns d)) as (-> & -> & -> & ->). cbn.
    rewrite !dom_insert_L.
    rewrite !(comm_L (∪) {[ix_name d]} (dom _)), <- !(assoc_L (∪)).
    repeat split; reflexivity.
Qed.

Lemma build_namespace_dom (ixs : list IdlInstruction) :
  dom (ns_instruction (steps ixs no_namespaces)) = list_to_set (ix_name <$> ixs) /\
  dom (ns_transaction (steps ixs no_namespaces)) = list_to_set (ix_name <$> ixs) /\
  dom (ns_rpc (steps ixs no_namespaces)) = list_to_set (ix_name <$> ixs) /\
  dom (ns_simulate (steps ixs no_namespaces)) = list_to_set (ix_name <$> ixs).
Proof.
  destruct (register_instructions_dom ixs no_namespaces) as (Hi & Ht & Hr & Hs).
  cbn [no_namespaces ns_instruction ns_transaction ns_rpc ns_simulate] in Hi, Ht, Hr, Hs.
  rewrite dom_empty_L, (left_id_L ∅ (∪)) in Hi.
  rewrite dom_empty_L, (left_id_L ∅ (∪)) in Ht.
  rewrite dom_empty_L, (left_id_L ∅ (∪)) in Hr.
  rewrite dom_empty_L, (left_id_L ∅ (∪)) in Hs.
  repeat split; assumption.
Qed.

(** A name that no later definition declares keeps its handles. *)
Lemma register_instructions_keep (later : list IdlInstruction) (ns : Namespaces)
    (name : string) :
  Forall (fun d' => ix_name d' ≠ name) later ->
  ns_instruction (steps later ns) !! name = ns_instruction ns !! name /\
  ns_transaction (steps later ns) !! name = ns_transaction ns !! name /\
  ns_rpc (steps later ns) !! name = ns_rpc ns !! name /\
  ns_simulate (steps later ns) !! name = ns_simulate ns !! name.
Proof.
  intros Hlater. revert ns.
  induction Hlater as [|d later Hd _ IH]; intros ns.
  - repeat split; reflexivity.
  - unfold register_instructions in *. cbn [foldl].
    destruct (IH (step ns d)) as (-> & -> & -> & ->).
    apply register_instruction_other, Hd.
Qed.

Lemma aligned_no_namespaces : aligned idl coder program_id provider no_namespaces.
Proof. intros name. cbn. rewrite !lookup_empty. repeat split; reflexivity. Qed.

Lemma size_list_to_set_remove_dups (names : list string) :
  size (list_to_set names : gset string) = length (remove_dups names).
Proof.
  rewrite <- (size_list_to_set (C := gset string) (remove_dups names))
    by apply NoDup_remove_dups.
  f_equal. apply set_eq. intros x.
  rewrite !elem_of_list_to_set, elem_of_remove_dups. reflexivity.
Qed.

(** C7.  The four instruction namespaces have the same keys, which are the
    declared instruction names as they stand in the schema.  Under each
    name, the transaction handle is built from the instruction builder
    registered under that name, and the rpc and simulate handles from that
    transaction handle: one builder instance serves all four. *)
Theorem namespaces_share_keys_and_builder :
  let '(rpc, instruction, transaction, _, simulate, _) :=
    _build_namespace idl coder program_id provider in
  dom instruction = list_to_set (ix_name <$> idl_instructions idl) /\
  dom transaction = dom instruction /\
  dom rpc = dom instruction /\
  dom simulate = dom instruction /\
  forall name ix_item,
    instruction !! name = Some ix_item ->
    ix_name (ixfn_idl_ix ix_item) = name /\
    transaction !! name =
      Some (build_transaction_fn (ixfn_idl_ix ix_item) ix_item) /\
    rpc !! name =
      Some (build_rpc_item (ixfn_idl_ix ix_item)
              (build_transaction_fn (ixfn_idl_ix ix_item) ix_item)
              (_parse_idl_errors idl) provider) /\
    simulate !! name =
      Some (build_simulate_item (ixfn_idl_ix ix_item)
              (build_transaction_fn (ixfn_idl_ix ix_item) ix_item)
              (_parse_idl_errors idl) provider coder program_id idl).
Proof.
  unfold _build_namespace.
  destruct (build_namespace_dom (idl_instructions idl)) as (Hi & Ht & Hr & Hs).
  split; [exact Hi|]. rewrite Hi.
  split; [exact Ht|]. split; [exact Hr|]. split; [exact Hs|].
  intros name ix_item Hix.
  pose proof (register_instructions_aligned (idl_instructions idl) no_namespaces
                aligned_no_namespaces name) as Hal.
  rewrite Hix in Hal. exact Hal.
Qed.

(** C9.  When two definitions declare the same name and no definition after
    the second declares it, all four namespaces hold under that name the
    handles built from the second definition: the builder registered is the
    one allocated for the second definition, not the one allocated for the
    first.  Each namespace has as many entries as there are distinct
    declared names. *)
Theorem later_definition_overwrites (before between after : list IdlInstruction)
    (first second : IdlInstruction) :
  idl_instructions idl = before ++ first :: between ++ second :: after ->
  ix_name first = ix_name second ->
  Forall (fun d => ix_name d ≠ ix_name second) after ->
  let '(rpc, instruction, transaction, _, simulate, _) :=
    _build_namespace idl coder program_id provider in
  let name := ix_name second in
  let ix_item := ix_item_of coder program_id (length before + 1 + length between) second in
  let tx_item := build_transaction_fn second ix_item in
  (instruction !! name = Some ix_item /\
   ixfn_object ix_item ≠ length before /\
   transaction !! name = Some tx_item /\
   rpc !! name = Some (build_rpc_item second tx_item (_parse_idl_errors idl) provider) /\
   simulate !! name =
     Some (build_simulate_item second tx_item (_parse_idl_errors idl) provider
             coder program_id idl)) /\
  let distinct := length (remove_dups (ix_name <$> idl_instructions idl)) in
  size instruction = distinct /\ size transaction = distinct /\
  size rpc = distinct /\ size simulate = distinct.
Proof.
  intros Hixs Hname Hafter. unfold _build_namespace. split.
  - rewrite Hixs.
    replace (before ++ first :: between ++ second :: after)
      with ((before ++ first :: between) ++ [second] ++ after)
      by (rewrite <- !app_assoc; reflexivity).
    rewrite (register_instructions_app (before ++ first :: between)),
      (register_instructions_app [second]).
    set (ns := steps (before ++ first :: between) no_namespaces).
    destruct (register_instructions_keep after (steps [second] ns) (ix_name second) Hafter)
      as (-> & -> & -> & ->).
    unfold register_instructions. cbn [foldl].
    assert (Halloc : ns_allocated ns = (length before + 1 + length between)%nat).
    { subst ns. rewrite register_instructions_allocated, length_app. cbn. lia. }
    destruct (register_instruction_same ns second) as (Hi & Ht & Hr & Hs).
    rewrite Halloc in Hi, Ht, Hr, Hs.
    split; [exact Hi|]. split; [cbn; lia|].
    split; [exact Ht|]. split; [exact Hr | exact Hs].
  - destruct (build_namespace_dom (idl_instructions idl)) as (Hi & Ht & Hr & Hs).
    cbn zeta. rewrite <- size_list_to_set_remove_dups.
    rewrite <- Hi at 1. rewrite <- Ht at 1. rewrite <- Hr at 1. rewrite <- Hs.
    rewrite !size_dom. repeat split; reflexivity.
Qed.

End Namespace.

(** ** The program facade *)

Lemma build_account_provider (idl : Idl) (coder : Coder) (program_id : PublicKey)
    (provider : Provider) (name : string) (client : AccountClient) :
  build_account idl coder program_id provider !! name = Some client ->
  _provider client = provider /\ _coder client = coder /\ _program_id client = program_id.
Proof.
  unfold build_account.
  enough (Hgen : forall accounts (m : gmap string AccountClient),
            (forall c, m !! name = Some c ->
               _provider c = provider /\ _coder c = coder /\ _program_id c = program_id) ->
            foldl (fun accounts_fns idl_account =>
                     <[typedef_name idl_account :=
                         AccountClient_init idl idl_account coder program_id provider]>
                       accounts_fns) m accounts !! name = Some client ->
            _provider client = provider /\ _coder client = coder /\
            _program_id client = program_id).
  { apply Hgen. intros c Hc. rewrite lookup_empty in Hc. discriminate. }
  induction accounts as [|a accounts IH]; intros m Hm; cbn [foldl].
  - apply Hm.
  - apply IH. intros c.
    destruct (decide (typedef_name a = name)) as [<-|Hne].
    + rewrite lookup_insert_eq. intros [= <-]. repeat split; reflexivity.
    + rewrite lookup_insert_ne by exact Hne. apply Hm.
Qed.

(** C5, as the code has it.  [Program.__init__] uses the provider the caller
    passes when there is one, and [Provider.local()] when the argument is
    omitted or [None].  The provider so chosen is the one every account
    client and every rpc handle of the program is built with. *)
Theorem Program_init_provider (idl : Idl) (program_id : PublicKey)
    (provider : option Provider) :
  let self := Program_init idl program_id provider in
  let used := match provider with
              | Some given => given
              | None => Provider_local
              end in
  program_provider self = used /\
  (forall name client,
     program_account self !! name = Some client -> _provider client = used) /\
  (forall name ix_item,
     program_instruction self !! name = Some ix_item ->
     program_rpc self !! name =
       Some (build_rpc_item (ixfn_idl_ix ix_item)
               (build_transaction_fn (ixfn_idl_ix ix_item) ix_item)
               (_parse_idl_errors idl) used)).
Proof.
  intros self used. subst self. unfold Program_init, _build_namespace.
  cbn [program_provider program_account program_instruction program_rpc].
  fold used. split; [reflexivity|]. split.
  - intros name client. destruct (idl_accounts idl) eqn:Haccounts.
    + rewrite lookup_empty. discriminate.
    + intros Hclient. eapply build_account_provider. exact Hclient.
  - intros name ix_item Hix.
    pose proof (register_instructions_aligned idl (Coder_new idl) program_id used
                  (idl_instructions idl) no_namespaces
                  (aligned_no_namespaces idl (Coder_new idl) program_id used) name) as Hal.
    rewrite Hix in Hal. destruct Hal as (_ & _ & Hrpc & _). exact Hrpc.
Qed.

(** *** [fetch_idl] *)

Lemma zlib_decompress_ok (wbits : Z) (data output : bytes) :
  zlib_decompress inflate_raw wbits data = Ok output <->
  zlib_stream_of inflate_raw wbits data output.
Proof.
  unfold zlib_stream_of, zlib_decompress.
  destruct data as [|cmf [|flg body]].
  - split; [intros [= <-]; left; split; [cbn; lia | reflexivity]|].
    intros [[_ ->]|(c & f & b & Hd & _)]; [reflexivity | discriminate].
  - split; [intros [= <-]; left; split; [cbn; lia | reflexivity]|].
    intros [[_ ->]|(c & f & b & Hd & _)]; [reflexivity | discriminate].
  - set (cmf_n := Z.of_N (Byte.to_N cmf)). set (flg_n := Z.of_N (Byte.to_N flg)).
    split.
    + case_bool_decide as Hcheck; [discriminate|].
      case_bool_decide as Hcm; [discriminate|].
      case_bool_decide as Hwin; [discriminate|].
      intros Hbody. right. exists cmf, flg, body.
      split; [reflexivity|]. fold cmf_n flg_n.
      split; [lia|]. split; [lia|]. split; [lia|].
      case_bool_decide as Hdict.
      * left. destruct (decide (length body < 4)%nat) as [Hshort|]; [|discriminate].
        injection Hbody as <-. repeat split; assumption.
      * right. split; [lia|].
        destruct (inflate_raw body) as [out rest|out|msg]; [| |discriminate].
        -- right. exists rest.
           destruct rest as [|a [|b [|c [|d rest]]]];
             try (injection Hbody as <-; split; [reflexivity | left; cbn; lia]).
           case_bool_decide; [discriminate|].
           injection Hbody as <-. split; [reflexivity|]. right.
           change (take 4 (a :: b :: c :: d :: rest)) with [a; b; c; d]. assumption.
        -- injection Hbody as <-. left. reflexivity.
    + intros [[Hlen _]|(c & f & b & [= <- <- <-] & Hcheck & Hcm & Hwin & Hrest)].
      { cbn in Hlen. lia. }
      fold cmf_n flg_n in Hcheck, Hcm, Hwin, Hrest.
      rewrite !bool_decide_eq_false_2 by lia.
      destruct Hrest as [(Hdict & Hshort & ->)|(Hdict & Hbody)].
      * rewrite bool_decide_eq_true_2 by exact Hdict.
        destruct (decide (length body < 4)%nat); [reflexivity | contradiction].
      * rewrite bool_decide_eq_false_2 by lia.
        destruct Hbody as [->|(rest & -> & Htrailer)]; [reflexivity|].
        destruct rest as [|a [|b' [|c' [|d rest]]]]; try reflexivity.
        destruct Htrailer as [Hlen|Hadler]; [cbn in Hlen; lia|].
        change (take 4 (a :: b' :: c' :: d :: rest)) with [a; b'; c'; d] in Hadler.
        rewrite bool_decide_eq_false_2; [reflexivity|].
        intros Hne. apply Hne. exact Hadler.
Qed.

Lemma foreign_ok {A : Type} (r : Foreign_result A) (a : A) :
  foreign r = Ok a <-> r = inr a.
Proof.
  destruct r as [[c m]|a']; cbn; split; intros H; try discriminate; congruence.
Qed.

Lemma foreign_raises {A : Type} (r : Foreign_result A) (e : Exception) :
  foreign r = Raise e -> exists class_name msg, e = Foreign class_name msg.
Proof.
  destruct r as [[c m]|a']; cbn; [|discriminate]. intros [= <-]. eauto.
Qed.

Lemma _pako_inflate_ok (data output : bytes) :
  _pako_inflate data = Ok output <-> zlib_stream_of inflate_raw 15 data output.
Proof.
  rewrite <- zlib_decompress_ok. unfold _pako_inflate, decompressobj_flush.
  run_unfold. destruct (zlib_decompress inflate_raw 15 data) as [out|e].
  - rewrite app_nil_r. reflexivity.
  - split; discriminate.
Qed.

Lemma _pako_inflate_raises (data : bytes) (e : Exception) :
  _pako_inflate data = Raise e -> exists msg, e = Foreign "zlib.error" msg.
Proof.
  unfold _pako_inflate, zlib_decompress, zlib_error. run_unfold.
  destruct data as [|cmf [|flg body]]; try discriminate.
  case_bool_decide; [intros [= <-]; eauto|].
  case_bool_decide; [intros [= <-]; eauto|].
  case_bool_decide; [intros [= <-]; eauto|].
  case_bool_decide.
  - destruct (decide (length body < 4)%nat); [discriminate | intros [= <-]; eauto].
  - destruct (inflate_raw body) as [out rest|out|msg]; try discriminate.
    + destruct rest as [|a [|b [|c [|d rest]]]]; try discriminate.
      case_bool_decide; [|discriminate]. intros [= <-]. eauto.
    + intros [= <-]. eauto.
Qed.

(** What becomes of the account found at the IDL address. *)
Lemma inflate_idl_account_ok (value : AccountInfoValue) (idl : Idl) :
  inflate_idl_account value = Ok idl <->
  exists payload rest decoded idl_account inflated text document,
    account_data value = payload :: rest /\
    b64decode payload = inr decoded /\
    decode_idl_account (drop 8 decoded) = inr idl_account /\
    zlib_stream_of inflate_raw 15 (idl_data idl_account) inflated /\
    utf8_decode inflated = inr text /\
    json_loads text = inr document /\
    Idl_from_json document = inr idl.
Proof.
  unfold inflate_idl_account. change (Z.to_nat ACCOUNT_DISCRIMINATOR_SIZE) with 8%nat.
  run_unfold. split.
  - destruct (account_data value) as [|payload rest]; cbn [item0]; [discriminate|].
    destruct (b64decode payload) as [[c m]|decoded] eqn:Hb64; cbn [foreign];
      [discriminate|].
    destruct (decode_idl_account (drop 8 decoded)) as [[c m]|idl_account] eqn:Hacc;
      cbn [foreign]; [discriminate|].
    destruct (_pako_inflate (idl_data idl_account)) as [inflated|e] eqn:Hinf;
      [|discriminate].
    destruct (utf8_decode inflated) as [[c m]|text] eqn:Htext; cbn [foreign];
      [discriminate|].
    destruct (json_loads text) as [[c m]|document] eqn:Hdoc; cbn [foreign];
      [discriminate|].
    intros Hidl. apply foreign_ok in Hidl. apply _pako_inflate_ok in Hinf.
    exists payload, rest, decoded, idl_account, inflated, text, document.
    repeat split; assumption || reflexivity.
  - intros (payload & rest & decoded & idl_account & inflated & text & document &
            -> & Hb64 & Hacc & Hinf & Htext & Hdoc & Hidl).
    cbn [item0]. rewrite Hb64. cbn [foreign]. rewrite Hacc. cbn [foreign].
    apply _pako_inflate_ok in Hinf. rewrite Hinf.
    rewrite Htext. cbn [foreign]. rewrite Hdoc. cbn [foreign]. rewrite Hidl.
    reflexivity.
Qed.

Lemma inflate_idl_account_raises (value : AccountInfoValue) (e : Exception) :
  inflate_idl_account value = Raise e -> exists class_name msg, e = Foreign class_name msg.
Proof.
  unfold inflate_idl_account. run_unfold.
  destruct (account_data value) as [|payload rest]; cbn [item0];
    [intros [= <-]; eauto|].
  destruct (b64decode payload) as [[c m]|decoded]; cbn [foreign]; [intros [= <-]; eauto|].
  destruct (decode_idl_account _) as [[c m]|idl_account]; cbn [foreign];
    [intros [= <-]; eauto|].
  destruct (_pako_inflate (idl_data idl_account)) as [inflated|e'] eqn:Hinf.
  - destruct (utf8_decode inflated) as [[c m]|text]; cbn [foreign];
      [intros [= <-]; eauto|].
    destruct (json_loads text) as [[c m]|document]; cbn [foreign];
      [intros [= <-]; eauto|].
    apply foreign_raises.
  - intros [= <-]. apply _pako_inflate_raises in Hinf as [msg ->]. eauto.
Qed.

Lemma fetch_idl_run (address : AddressType) (provider : option Provider) :
  run (fetch_idl address provider) =
    match translate_address address with
    | inl (c, m) => (Raise (Foreign c m), [])
    | inr pid =>
        match idl_address pid with
        | inl (c, m) => (Raise (Foreign c m), [])
        | inr idl_addr =>
            let conn := connection (match provider with
                                    | Some given => given
                                    | None => Provider_local
                                    end) in
            (match get_account_info conn (AddressKey idl_addr) None with
             | inl (c, m) => Raise (Foreign c m)
             | inr None =>
                 Raise (IdlNotFoundError
                          ("IDL not found for program: " +:+ format_address address))
             | inr (Some value) => inflate_idl_account value
             end,
             [GetAccountInfo (AddressKey idl_addr) None])
        end
    end.
Proof.
  unfold fetch_idl. run_unfold.
  destruct (translate_address address) as [[c m]|pid]; cbn [foreign]; [reflexivity|].
  destruct (idl_address pid) as [[c m]|idl_addr]; cbn [foreign]; [reflexivity|].
  cbn [app]. cbn zeta.
  destruct (get_account_info _ _ _) as [[c m]|[value|]]; reflexivity.
Qed.

(** C4, as the code has it.  [fetch_idl] raises [IdlNotFoundError] exactly
    when the transport reports no value at the address derived for the
    program.  It returns a schema exactly when the transport reports an
    account whose base-64 payload, less its first 8 bytes, decodes as an IDL
    account; whose [data] field is a zlib stream (two-byte zlib header,
    window of at most [2 ^ 15], no preset dictionary, DEFLATE data, Adler-32
    trailer) or the beginning of one, as [zlib_stream_of] has it; and whose
    inflated bytes are UTF-8 text that parses as JSON and then as the
    schema. *)
Theorem fetch_idl_spec (address : AddressType) (provider : option Provider) :
  let conn := connection (match provider with
                          | Some given => given
                          | None => Provider_local
                          end) in
  ((exists msg, fst (run (fetch_idl address provider)) = Raise (IdlNotFoundError msg)) <->
   exists pid idl_addr,
     translate_address address = inr pid /\
     idl_address pid = inr idl_addr /\
     get_account_info conn (AddressKey idl_addr) None = inr None) /\
  (forall idl,
     fst (run (fetch_idl address provider)) = Ok idl <->
     exists pid idl_addr value payload rest decoded idl_account inflated text document,
       translate_address address = inr pid /\
       idl_address pid = inr idl_addr /\
       get_account_info conn (AddressKey idl_addr) None = inr (Some value) /\
       account_data value = payload :: rest /\
       b64decode payload = inr decoded /\
       decode_idl_account (drop 8 decoded) = inr idl_account /\
       zlib_stream_of inflate_raw 15 (idl_data idl_account) inflated /\
       utf8_decode inflated = inr text /\
       json_loads text = inr document /\
       Idl_from_json document = inr idl).
Proof.
  intros conn. rewrite fetch_idl_run. fold conn. split.
  - split.
    + intros [msg Hraise].
      destruct (translate_address address) as [[c m]|pid] eqn:Hpid; [discriminate|].
      destruct (idl_address pid) as [[c m]|idl_addr] eqn:Haddr; [discriminate|].
      cbn [fst] in Hraise. exists pid, idl_addr.
      destruct (get_account_info conn (AddressKey idl_addr) None)
        as [[c m]|[value|]] eqn:Hinfo;
        [discriminate | | repeat split; assumption || reflexivity].
      apply inflate_idl_account_raises in Hraise as (c & m & Hforeign). discriminate.
    + intros (pid & idl_addr & -> & -> & Hnone). cbn [fst]. rewrite Hnone. eauto.
  - intros idl. split.
    + destruct (translate_address address) as [[c m]|pid] eqn:Hpid; [discriminate|].
      destruct (idl_address pid) as [[c m]|idl_addr] eqn:Haddr; [discriminate|].
      cbn [fst].
      destruct (get_account_info conn (AddressKey idl_addr) None)
        as [[c m]|[value|]] eqn:Hinfo;
        [discriminate | | discriminate].
      intros Hok. apply inflate_idl_account_ok in Hok
        as (payload & rest & decoded & idl_account & inflated & text & document & H).
      exists pid, idl_addr, value, payload, rest, decoded, idl_account, inflated,
        text, document.
      repeat split; assumption || apply H || reflexivity.
    + intros (pid & idl_addr & value & payload & rest & decoded & idl_account &
              inflated & text & document & -> & -> & Hvalue & H).
      cbn [fst]. rewrite Hvalue. apply inflate_idl_account_ok.
      exists payload, rest, decoded, idl_account, inflated, text, document. exact H.
Qed.

(** ** Further properties *)

(** *** Dictionaries filled in a loop *)

(** [for a in l: m[key(a)] = val(a)]: what the dictionary holds afterwards. *)
Lemma fill_keep {K V A : Type} `{Countable K} (key : A -> K) (val : A -> V)
    (l : list A) (m : gmap K V) (k : K) :
  Forall (fun a => key a ≠ k) l ->
  foldl (fun m a => <[key a := val a]> m) m l !! k = m !! k.
Proof.
  intros Hl. revert m. induction Hl as [|a l Ha _ IH]; intros m; cbn [foldl].
  - reflexivity.
  - rewrite IH. apply lookup_insert_ne, Ha.
Qed.

Lemma fill_last {K V A : Type} `{Countable K} (key : A -> K) (val : A -> V)
    (before : list A) (a : A) (after : list A) (m : gmap K V) :
  Forall (fun a' => key a' ≠ key a) after ->
  foldl (fun m a => <[key a := val a]> m) m (before ++ a :: after) !! key a =
    Some (val a).
Proof.
  intros Hafter. rewrite foldl_app. cbn [foldl].
  rewrite (fill_keep key val after _ (key a) Hafter). apply lookup_insert_eq.
Qed.

Lemma fill_dom {K V A : Type} `{Countable K} (key : A -> K) (val : A -> V)
    (l : list A) (m : gmap K V) :
  dom (foldl (fun m a => <[key a := val a]> m) m l) = dom m ∪ list_to_set (key <$> l).
Proof.
  revert m. induction l as [|a l IH]; intros m; cbn [foldl fmap list_fmap].
  - cbn. rewrite (right_id_L ∅ (∪)). reflexivity.
  - rewrite IH, dom_insert_L. cbn.
    rewrite (comm_L (∪) {[key a]} (dom m)), <- (assoc_L (∪)). reflexivity.
Qed.

(** Whatever the dictionary holds under a key was put there for some
    element of the list, unless it was there before. *)
Lemma fill_origin {K V A : Type} `{Countable K} (key : A -> K) (val : A -> V)
    (l : list A) (m : gmap K V) (k : K) (v : V) :
  foldl (fun m a => <[key a := val a]> m) m l !! k = Some v ->
  m !! k = Some v \/ exists a, a ∈ l /\ key a = k /\ val a = v.
Proof.
  revert m. induction l as [|a l IH]; intros m; cbn [foldl].
  - intros Hm. left. exact Hm.
  - intros Hv. apply IH in Hv as [Hv|(a' & Hin & Hk & Hval)].
    + destruct (decide (key a = k)) as [Heq|Hne].
      * rewrite Heq, lookup_insert_eq in Hv. injection Hv as <-.
        right. exists a. split; [apply list_elem_of_here | split; [exact Heq | reflexivity]].
      * rewrite lookup_insert_ne in Hv by exact Hne. left. exact Hv.
    + right. exists a'. split; [apply list_elem_of_further, Hin | split; assumption].
Qed.

(** *** [_parse_idl_errors] *)

(** X1.  The error table holds, under a code, the text of the last error
    that declares the code: its message when it has one that is not empty,
    and its name otherwise (a missing message and an empty one alike). *)
Theorem parse_idl_errors_last_wins (idl : Idl) (before : list IdlErrorCode)
    (e : IdlErrorCode) (after : list IdlErrorCode) :
  idl_errors idl = before ++ e :: after ->
  Forall (fun e' => err_code e' ≠ err_code e) after ->
  (forall m, err_msg e = Some m -> m ≠ "" ->
     _parse_idl_errors idl !! err_code e = Some m) /\
  (err_msg e = None \/ err_msg e = Some "" ->
     _parse_idl_errors idl !! err_code e = Some (err_name e)).
Proof.
  intros Herrors Hafter. unfold _parse_idl_errors. rewrite Herrors.
  rewrite (fill_last err_code
             (fun e => match err_msg e with
                       | Some m => if bool_decide (m ≠ "") then m else err_name e
                       | None => err_name e
                       end) before e after ∅ Hafter).
  split.
  - intros m -> Hm. rewrite bool_decide_eq_true_2 by exact Hm. reflexivity.
  - intros [->| ->]; reflexivity.
Qed.

(** X2.  The codes of the error table are exactly the declared codes, and
    every text in it is the name, or the message, of a declared error of
    that code. *)
Theorem parse_idl_errors_codes (idl : Idl) :
  (forall code,
     is_Some (_parse_idl_errors idl !! code) <-> code ∈ err_code <$> idl_errors idl) /\
  (forall code text,
     _parse_idl_errors idl !! code = Some text ->
     exists e, e ∈ idl_errors idl /\ err_code e = code /\
               (text = err_name e \/ err_msg e = Some text)).
Proof.
  unfold _parse_idl_errors. split.
  - intros code. rewrite <- elem_of_dom, fill_dom, dom_empty_L, (left_id_L ∅ (∪)).
    apply elem_of_list_to_set.
  - intros code text Htext.
    apply fill_origin in Htext as [Hempty|(e & Hin & Hcode & Hval)].
    + rewrite lookup_empty in Hempty. discriminate.
    + exists e. split; [exact Hin | split; [exact Hcode|]].
      destruct (err_msg e) as [m|]; [|left; congruence].
      case_bool_decide; [right | left]; congruence.
Qed.

(** *** [build_account] *)

(** X3.  The account namespace has the declared account type names as its
    keys.  Under a name it holds the client that [AccountClient.__init__]
    makes of the last definition of that name, with the coder, the program
    address and the provider given to [build_account], and a size of 8 plus
    the layout size of that definition. *)
Theorem build_account_last_wins (idl : Idl) (coder : Coder) (program_id : PublicKey)
    (provider : Provider) (before : list IdlTypeDef) (idl_account : IdlTypeDef)
    (after : list IdlTypeDef) :
  idl_accounts idl = before ++ idl_account :: after ->
  Forall (fun a => typedef_name a ≠ typedef_name idl_account) after ->
  dom (build_account idl coder program_id provider) =
    list_to_set (typedef_name <$> idl_accounts idl) /\
  build_account idl coder program_id provider !! typedef_name idl_account =
    Some {| _idl_account := idl_account;
            _program_id := program_id;
            _provider := provider;
            _coder := coder;
            _size := 8 + _account_size idl idl_account |}.
Proof.
  intros Haccounts Hafter. unfold build_account. split.
  - rewrite fill_dom, dom_empty_L, (left_id_L ∅ (∪)). reflexivity.
  - rewrite Haccounts.
    apply (fill_last typedef_name
             (fun a => AccountClient_init idl a coder program_id provider)
             before idl_account after ∅ Hafter).
Qed.

(** *** [fetch] *)

(** The run of [fetch] when the transport has answered with a value. *)
Lemma fetch_value_run (self : AccountClient) (address : AddressType)
    (value : AccountInfoValue) :
  get_account_info (connection (_provider self)) address (Some "base64") = inr (Some value) ->
  run (fetch self address) =
    match account_data value with
    | [] => (Raise (Foreign "IndexError" "list index out of range"),
             [GetAccountInfo address (Some "base64")])
    | payload :: _ =>
        match b64decode payload with
        | inl (c, m) => (Raise (Foreign c m), [GetAccountInfo address (Some "base64")])
        | inr data =>
            if bool_decide (account_discriminator (typedef_name (_idl_account self)) ≠
                            take 8 data)
            then (Raise (AccountInvalidDiscriminator
                           ("Account " +:+ format_address address +:+
                            " has an invalid discriminator")),
                  [GetAccountInfo address (Some "base64")])
            else (accounts_decode (_coder self) data,
                  [GetAccountInfo address (Some "base64"); AccountsDecode data])
        end
    end.
Proof.
  intros Hinfo. unfold fetch. run_unfold. rewrite Hinfo. cbn [foreign app].
  destruct (account_data value) as [|payload rest]; cbn [item0]; [reflexivity|].
  destruct (b64decode payload) as [[c m]|data]; cbn [foreign]; [reflexivity|].
  change (Z.to_nat ACCOUNT_DISCRIMINATOR_SIZE) with 8%nat.
  destruct (bool_decide _); reflexivity.
Qed.

(** X4.  [fetch] returns a container exactly when the transport reports a
    value whose payload is base 64 of data that starts with the
    discriminator of the account type and that the coder decodes to that
    container; the coder is given the whole data, discriminator included. *)
Theorem fetch_returns_iff (self : AccountClient) (address : AddressType)
    (container : Container) :
  fst (run (fetch self address)) = Ok container <->
  exists value payload rest data,
    get_account_info (connection (_provider self)) address (Some "base64") =
      inr (Some value) /\
    account_data value = payload :: rest /\
    b64decode payload = inr data /\
    take 8 data = account_discriminator (typedef_name (_idl_account self)) /\
    accounts_decode (_coder self) data = Ok container.
Proof.
  split.
  - destruct (get_account_info (connection (_provider self)) address (Some "base64"))
      as [[c m]|[value|]] eqn:Hinfo.
    + unfold fetch. run_unfold. rewrite Hinfo. discriminate.
    + rewrite (fetch_value_run self address value Hinfo).
      destruct (account_data value) as [|payload rest] eqn:Hdata; [discriminate|].
      destruct (b64decode payload) as [[c m]|data] eqn:Hb64; [discriminate|].
      case_bool_decide as Hcmp; [discriminate|]. cbn [fst]. intros Hdec.
      exists value, payload, rest, data. repeat split; congruence.
    + unfold fetch. run_unfold. rewrite Hinfo. discriminate.
  - intros (value & payload & rest & data & Hinfo & Hdata & Hb64 & Hcmp & Hdec).
    rewrite (fetch_value_run self address value Hinfo), Hdata, Hb64.
    rewrite bool_decide_eq_false_2; [exact Hdec|].
    intros Hne. apply Hne. congruence.
Qed.

(** X5.  When [fetch] fails, either the coder was never called and the
    transport call is the only one on record, or the failure is the coder's
    own, on data that had passed the discriminator check. *)
Theorem fetch_failure_origin (self : AccountClient) (address : AddressType)
    (e : Exception) :
  fst (run (fetch self address)) = Raise e ->
  snd (run (fetch self address)) = [GetAccountInfo address (Some "base64")] \/
  exists data,
    snd (run (fetch self address)) =
      [GetAccountInfo address (Some "base64"); AccountsDecode data] /\
    take 8 data = account_discriminator (typedef_name (_idl_account self)) /\
    accounts_decode (_coder self) data = Raise e.
Proof.
  destruct (get_account_info (connection (_provider self)) address (Some "base64"))
    as [[c m]|[value|]] eqn:Hinfo.
  - unfold fetch. run_unfold. rewrite Hinfo. left. reflexivity.
  - rewrite (fetch_value_run self address value Hinfo).
    destruct (account_data value) as [|payload rest]; [left; reflexivity|].
    destruct (b64decode payload) as [[c m]|data]; [left; reflexivity|].
    case_bool_decide as Hcmp; [left; reflexivity|].
    cbn [fst snd]. intros Hdec. right. exists data. repeat split; congruence.
  - unfold fetch. run_unfold. rewrite Hinfo. left. reflexivity.
Qed.

(** X6.  A failure of the transport passes through [fetch] unchanged, and
    nothing else is attempted. *)
Theorem fetch_transport_failure (self : AccountClient) (address : AddressType)
    (class_name msg : string) :
  get_account_info (connection (_provider self)) address (Some "base64") =
    inl (class_name, msg) ->
  run (fetch self address) =
    (Raise (Foreign class_name msg), [GetAccountInfo address (Some "base64")]).
Proof.
  intros Hinfo. unfold fetch. run_unfold. rewrite Hinfo. reflexivity.
Qed.

(** X7.  An account whose [data] array is empty makes [fetch] fail with the
    [IndexError] of [data[0]], and one whose payload is not base 64 with the
    decoder's error; in both cases before the discriminator is looked at,
    so never with [AccountInvalidDiscriminator]. *)
Theorem fetch_malformed_response (self : AccountClient) (address : AddressType)
    (value : AccountInfoValue) :
  get_account_info (connection (_provider self)) address (Some "base64") = inr (Some value) ->
  (account_data value = [] \/
   exists payload rest c m, account_data value = payload :: rest /\
                            b64decode payload = inl (c, m)) ->
  exists class_name msg,
    run (fetch self address) =
      (Raise (Foreign class_name msg), [GetAccountInfo address (Some "base64")]) /\
    (account_data value = [] -> class_name = "IndexError") /\
    (forall payload rest, account_data value = payload :: rest ->
       b64decode payload = inl (class_name, msg)).
Proof.
  intros Hinfo Hbad. rewrite (fetch_value_run self address value Hinfo).
  destruct Hbad as [Hempty|(payload & rest & c & m & Hdata & Hb64)].
  - rewrite Hempty. exists "IndexError", "list index out of range".
    split; [reflexivity|]. split; [reflexivity | discriminate].
  - rewrite Hdata, Hb64. exists c, m.
    split; [reflexivity|]. split; [discriminate|].
    intros payload' rest' [= <- <-]. exact Hb64.
Qed.

(** *** [create_instruction] *)

(** X8.  When the rent query fails, [create_instruction] fails with the
    transport's error and builds no instruction: the result does not depend
    on [create_account]. *)
Theorem create_instruction_rent_failure (self : AccountClient) (signer : Keypair)
    (size_override : Z) (class_name msg : string) :
  get_minimum_balance_for_rent_exemption (connection (_provider self))
    (if decide (size_override = 0) then _size self else size_override) =
    inl (class_name, msg) ->
  run (create_instruction self signer size_override) =
    (Raise (Foreign class_name msg),
     [GetMinimumBalanceForRentExemption
        (if decide (size_override = 0) then _size self else size_override)]).
Proof.
  intros Hrent.
  rewrite (create_instruction_run self signer size_override
             (if decide (size_override = 0) then _size self else size_override)).
  - rewrite Hrent. reflexivity.
  - destruct (decide (size_override = 0)) as [->|Hne].
    + rewrite bool_decide_eq_false_2; [reflexivity | intros H; apply H; reflexivity].
    + rewrite bool_decide_eq_true_2; [reflexivity | exact Hne].
Qed.

(** X9.  Passing the client's own size as [size_override] is the same as
    passing none: the same rent query and the same instruction. *)
Theorem create_instruction_override_own_size (self : AccountClient) (signer : Keypair) :
  run (create_instruction self signer (AccountClient_size self)) =
  run (create_instruction self signer 0).
Proof.
  unfold AccountClient_size.
  rewrite (create_instruction_run self signer (_size self) (_size self)).
  - rewrite (create_instruction_run self signer 0 (_size self)); [reflexivity|].
    rewrite bool_decide_eq_false_2; [reflexivity | intros H; apply H; reflexivity].
  - case_bool_decide; reflexivity.
Qed.

(** *** [all] *)

(** X10.  Leaving out [buffer] and [memcmp_opts] is the same as passing an
    empty buffer and an empty list of filters. *)
Theorem all_defaults (self : AccountClient) (data_size : option Z) :
  run (all self None None data_size) = run (all self (Some []) (Some []) data_size).
Proof.
  assert (Hfilters : full_memcmp_opts self (Some []) (Some []) =
                     full_memcmp_opts self None None).
  { unfold full_memcmp_opts.
    rewrite (app_nil_r (account_discriminator (typedef_name (_idl_account self)))).
    reflexivity. }
  unfold all. rewrite Hfilters. reflexivity.
Qed.

(** X11.  When the search for program accounts fails, [all] fails with the
    transport's error after that one call, and decodes nothing. *)
Theorem all_transport_failure (self : AccountClient) (buffer : option bytes)
    (memcmp_opts : option (list MemcmpOpts)) (data_size : option Z)
    (class_name msg : string) :
  get_program_accounts (connection (_provider self)) (_program_id self) "base64"
    (_commitment (connection (_provider self))) data_size
    (full_memcmp_opts self buffer memcmp_opts) = inl (class_name, msg) ->
  run (all self buffer memcmp_opts data_size) =
    (Raise (Foreign class_name msg),
     [GetProgramAccounts (_program_id self) "base64"
        (_commitment (connection (_provider self))) data_size
        (full_memcmp_opts self buffer memcmp_opts)]).
Proof.
  intros Hresp. unfold all, AccountClient_provider. run_unfold.
  rewrite Hresp. reflexivity.
Qed.

(** The calls a record leaves on the trace when it decodes. *)
Lemma decode_record_ok_trace (self : AccountClient) (r : KeyedAccount)
    (decoded : ProgramAccount) :
  fst (run (decode_record self r)) = Ok decoded ->
  exists payload rest data,
    account_data (keyed_account r) = payload :: rest /\
    b64decode payload = inr data /\
    snd (run (decode_record self r)) = [AccountsDecode data].
Proof.
  unfold decode_record. run_unfold.
  destruct (account_data (keyed_account r)) as [|payload rest]; cbn; [discriminate|].
  destruct (b64decode payload) as [[c m]|data] eqn:Hb64; cbn; [discriminate|].
  destruct (PublicKey_of_str (keyed_pubkey r)) as [[c m]|key]; cbn; [discriminate|].
  destruct (accounts_decode (_coder self) data) as [value|e]; cbn; [|discriminate].
  intros _. exists payload, rest, data. repeat split; assumption || reflexivity.
Qed.

Lemma for_each_decode_trace (self : AccountClient) (resp : list KeyedAccount)
    (accounts : list ProgramAccount) :
  fst (run (for_each (decode_record self) resp)) = Ok accounts ->
  exists datas,
    Forall2 (fun r data =>
               exists payload rest,
                 account_data (keyed_account r) = payload :: rest /\
                 b64decode payload = inr data) resp datas /\
    snd (run (for_each (decode_record self) resp)) = AccountsDecode <$> datas.
Proof.
  revert accounts. induction resp as [|r resp IH]; intros accounts.
  - intros _. exists []. split; [constructor | reflexivity].
  - cbn [for_each]. unfold run in *. run_unfold.
    destruct (decode_record self r []) as [[d|e] trr] eqn:Hr; cbn [fst];
      [|discriminate].
    destruct (decode_record_ok_trace self r d) as (payload & rest & data & Hd & Hb & Htr).
    { unfold run. rewrite Hr. reflexivity. }
    unfold run in Htr. rewrite Hr in Htr. cbn [snd] in Htr. subst trr.
    rewrite (for_each_framed (decode_record self) resp (decode_record_framed self)
               [AccountsDecode data]).
    unfold run.
    destruct (for_each (decode_record self) resp []) as [[ds|e] trs] eqn:Hrest;
      cbn [fst snd] in *; [|discriminate].
    intros _. destruct (IH ds eq_refl) as (datas & Hall & Htrs).
    exists (data :: datas). split.
    + constructor; [exists payload, rest; split; assumption | exact Hall].
    + rewrite Htrs. reflexivity.
Qed.

(** X12.  When [all] returns, the calls on record are the one search
    followed by one call of the coder per returned record, in the order of
    the response, each on the base-64 decoding of its record's payload. *)
Theorem all_trace_on_success (self : AccountClient) (buffer : option bytes)
    (memcmp_opts : option (list MemcmpOpts)) (data_size : option Z)
    (resp : list KeyedAccount) (accounts : list ProgramAccount) :
  get_program_accounts (connection (_provider self)) (_program_id self) "base64"
    (_commitment (connection (_provider self))) data_size
    (full_memcmp_opts self buffer memcmp_opts) = inr resp ->
  fst (run (all self buffer memcmp_opts data_size)) = Ok accounts ->
  exists datas,
    Forall2 (fun r data =>
               exists payload rest,
                 account_data (keyed_account r) = payload :: rest /\
                 b64decode payload = inr data) resp datas /\
    snd (run (all self buffer memcmp_opts data_size)) =
      GetProgramAccounts (_program_id self) "base64"
        (_commitment (connection (_provider self))) data_size
        (full_memcmp_opts self buffer memcmp_opts)
      :: (AccountsDecode <$> datas).
Proof.
  intros Hresp.
  assert (Hrun : run (all self buffer memcmp_opts data_size) =
                 (fst (run (for_each (decode_record self) resp)),
                  GetProgramAccounts (_program_id self) "base64"
                    (_commitment (connection (_provider self))) data_size
                    (full_memcmp_opts self buffer memcmp_opts)
                  :: snd (run (for_each (decode_record self) resp)))).
  { unfold all, AccountClient_provider. run_unfold. rewrite Hresp. cbn [foreign app].
    rewrite (for_each_framed (decode_record self) resp (decode_record_framed self)).
    reflexivity. }
  rewrite Hrun. cbn [fst snd]. intros Hok.
  destruct (for_each_decode_trace self resp accounts Hok) as (datas & Hall & Htr).
  exists datas. split; [exact Hall|]. rewrite Htr. reflexivity.
Qed.

(** X13.  The filters [all] sends determine the bytes it compares with and
    the caller's filters: two calls that send the same list of filters
    compare the same [discriminator ++ buffer] and carry the same extra
    filters. *)
Theorem filters_determine_bytes (self other : AccountClient)
    (buffer buffer' : option bytes) (memcmp_opts memcmp_opts' : option (list MemcmpOpts)) :
  full_memcmp_opts self buffer memcmp_opts = full_memcmp_opts other buffer' memcmp_opts' ->
  account_discriminator (typedef_name (_idl_account self)) ++ default [] buffer =
    account_discriminator (typedef_name (_idl_account other)) ++ default [] buffer' /\
  default [] memcmp_opts = default [] memcmp_opts'.
Proof.
  unfold full_memcmp_opts. intros Heq.
  assert (Hsome : forall (d : bytes) (b : option bytes),
            match b with Some b => d ++ b | None => d end = d ++ default [] b).
  { intros d [b|]; cbn; [reflexivity | rewrite app_nil_r; reflexivity]. }
  rewrite !Hsome in Heq. cbn [app] in Heq.
  injection Heq as Hbytes Hextra. split.
  - apply (f_equal String.list_byte_of_string) in Hbytes.
    rewrite !String.list_byte_of_string_of_list_byte in Hbytes.
    apply (f_equal b58decode) in Hbytes.
    rewrite !b58decode_b58encode in Hbytes. congruence.
  - destruct memcmp_opts, memcmp_opts'; exact Hextra.
Qed.

(** *** [_pako_inflate] *)

(** X14.  On less than the two bytes of a zlib header [_pako_inflate]
    returns no bytes, without an error; and it fails with [zlib.error] and
    nothing else, which takes an input of at least two bytes. *)
Theorem pako_inflate_outcomes (data : bytes) :
  ((length data < 2)%nat -> _pako_inflate data = Ok []) /\
  (forall e,
     _pako_inflate data = Raise e ->
     (2 <= length data)%nat /\ exists msg, e = Foreign "zlib.error" msg).
Proof.
  split.
  - intros Hshort. destruct data as [|a [|b data]]; [reflexivity | reflexivity |].
    cbn in Hshort. lia.
  - intros e Hraise. split.
    + destruct data as [|a [|b data]]; cbn; try lia; discriminate.
    + exact (_pako_inflate_raises data e Hraise).
Qed.

(** X15.  A zlib stream with a sound header, whose DEFLATE data is complete
    and whose four trailer bytes are not the Adler-32 of the inflated bytes,
    is rejected with "incorrect data check", although everything was
    inflated. *)
Theorem pako_inflate_checks_trailer (cmf flg : byte) (body output rest : bytes) :
  (Z.of_N (Byte.to_N cmf) * 256 + Z.of_N (Byte.to_N flg)) mod 31 = 0 ->
  Z.land (Z.of_N (Byte.to_N cmf)) 15 = 8 ->
  Z.shiftr (Z.of_N (Byte.to_N cmf)) 4 + 8 <= 15 ->
  Z.land (Z.of_N (Byte.to_N flg)) 32 = 0 ->
  inflate_raw body = StreamEnd output rest ->
  (4 <= length rest)%nat ->
  of_digits 256 (Byte.to_N <$> take 4 rest) ≠ adler32 output ->
  _pako_inflate (cmf :: flg :: body) = Raise (zlib_error "incorrect data check").
Proof.
  intros Hcheck Hcm Hwin Hdict Hbody Hlen Hadler.
  unfold _pako_inflate, zlib_decompress. run_unfold.
  rewrite !bool_decide_eq_false_2 by lia. rewrite Hbody.
  destruct rest as [|a [|b [|c [|d rest]]]]; try (cbn in Hlen; lia).
  change (take 4 (a :: b :: c :: d :: rest)) with [a; b; c; d] in Hadler.
  rewrite bool_decide_eq_true_2 by exact Hadler. reflexivity.
Qed.

(** *** [fetch_idl] and [Program.at] *)

(** X16.  [fetch_idl] fails with [IdlNotFoundError], whose message names the
    address as the caller gave it, or with a collaborator's error; never
    with one of the account client's exceptions. *)
Theorem fetch_idl_failures (address : AddressType) (provider : option Provider)
    (e : Exception) :
  fst (run (fetch_idl address provider)) = Raise e ->
  e = IdlNotFoundError ("IDL not found for program: " +:+ format_address address) \/
  exists class_name msg, e = Foreign class_name msg.
Proof.
  rewrite fetch_idl_run.
  destruct (translate_address address) as [[c m]|pid]; [intros [= <-]; eauto|].
  destruct (idl_address pid) as [[c m]|idl_addr]; [intros [= <-]; eauto|].
  cbn [fst].
  destruct (get_account_info _ _ _) as [[c m]|[value|]].
  - intros [= <-]. eauto.
  - intros Hraise. right. exact (inflate_idl_account_raises value e Hraise).
  - intros [= <-]. left. reflexivity.
Qed.

(** X17.  [Program.at] returns a program exactly when the address
    translates to a program key and [fetch_idl] returns a schema for that
    key; the program is then the one [Program.__init__] makes of that
    schema, that key and the provider argument as it was passed. *)
Theorem Program_at_returns_iff (address : AddressType) (provider : option Provider)
    (program : Program) :
  fst (run (Program_at address provider)) = Ok program <->
  exists pid idl,
    translate_address address = inr pid /\
    fst (run (fetch_idl (AddressKey pid) provider)) = Ok idl /\
    program = Program_init idl pid provider.
Proof.
  unfold Program_at. run_unfold.
  destruct (translate_address address) as [[c m]|pid]; cbn [foreign].
  - split; [discriminate|]. intros (pid & idl & Hpid & _). discriminate.
  - destruct (fetch_idl (AddressKey pid) provider []) as [[idl|e] tr] eqn:Hrun;
      cbn [fst].
    + split.
      * intros [= <-]. exists pid, idl. rewrite Hrun. repeat split; reflexivity.
      * intros (pid' & idl' & [= <-] & Hidl & ->). rewrite Hrun in Hidl.
        injection Hidl as <-. reflexivity.
    + split; [discriminate|]. intros (pid' & idl' & [= <-] & Hidl & _).
      rewrite Hrun in Hidl. discriminate.
Qed.

(** X18.  A failure of [fetch_idl] passes through [Program.at] unchanged,
    with no call beyond those of [fetch_idl]; no program is built. *)
Theorem Program_at_failure (address : AddressType) (provider : option Provider)
    (pid : PublicKey) (e : Exception) :
  translate_address address = inr pid ->
  fst (run (fetch_idl (AddressKey pid) provider)) = Raise e ->
  run (Program_at address provider) =
    (Raise e, snd (run (fetch_idl (AddressKey pid) provider))).
Proof.
  intros Hpid. unfold Program_at. run_unfold. rewrite Hpid. cbn [foreign].
  destruct (fetch_idl (AddressKey pid) provider []) as [[idl|e'] tr] eqn:Hrun;
    cbn [fst snd].
  - discriminate.
  - intros [= <-]. reflexivity.
Qed.

(** *** [_build_namespace] and [Program.__init__] *)

(** Every builder in the instruction namespace was allocated for the
    definition at its own position in the list of definitions. *)
Lemma register_instructions_positions (idl : Idl) (coder : Coder)
    (program_id : PublicKey) (provider : Provider) (ixs : list IdlInstruction) :
  forall (seen : list IdlInstruction) (ns : Namespaces),
    ns_allocated ns = length seen ->
    (forall name ix_item,
       ns_instruction ns !! name = Some ix_item ->
       seen !! ixfn_object ix_item = Some (ixfn_idl_ix ix_item) /\
       ixfn_program_id ix_item = program_id /\
       ixfn_encode_fn ix_item = instruction_build coder) ->
    forall name ix_item,
      ns_instruction (register_instructions idl coder program_id provider ixs ns) !! name =
        Some ix_item ->
      (seen ++ ixs) !! ixfn_object ix_item = Some (ixfn_idl_ix ix_item) /\
      ixfn_program_id ix_item = program_id /\
      ixfn_encode_fn ix_item = instruction_build coder.
Proof.
  induction ixs as [|d ixs IH]; intros seen ns Halloc Hns name ix_item.
  - rewrite app_nil_r. apply Hns.
  - unfold register_instructions. cbn [foldl].
    fold (register_instructions idl coder program_id provider ixs
            (register_instruction idl coder program_id provider (_parse_idl_errors idl)
               ns d)).
    replace (seen ++ d :: ixs) with ((seen ++ [d]) ++ ixs)
      by (rewrite <- app_assoc; reflexivity).
    apply IH.
    + cbn. rewrite length_app, Halloc. cbn. lia.
    + intros name' ix'. cbn [register_instruction ns_instruction].
      destruct (decide (ix_name d = name')) as [<-|Hne].
      * rewrite lookup_insert_eq. intros [= <-]. cbn.
        rewrite Halloc, lookup_app_r, Nat.sub_diag by lia.
        repeat split; reflexivity.
      * rewrite lookup_insert_ne by exact Hne. intros Hold.
        destruct (Hns name' ix' Hold) as (Hpos & Hrest).
        split; [|exact Hrest]. apply lookup_app_l_Some, Hpos.
Qed.

(** X19.  Every instruction builder in the namespace was made for the
    definition that stands, in the schema's list, at the builder's own
    allocation number; that definition declares the name the builder is
    registered under; and the builder carries the program address and the
    instruction coder's [build].  So no builder is registered under two
    names. *)
Theorem builders_know_their_definition (idl : Idl) (coder : Coder)
    (program_id : PublicKey) (provider : Provider) :
  let '(_, instruction, _, _, _, _) :=
    _build_namespace idl coder program_id provider in
  (forall name ix_item,
     instruction !! name = Some ix_item ->
     idl_instructions idl !! ixfn_object ix_item = Some (ixfn_idl_ix ix_item) /\
     ix_name (ixfn_idl_ix ix_item) = name /\
     ixfn_program_id ix_item = program_id /\
     ixfn_encode_fn ix_item = instruction_build coder) /\
  (forall name name' ix_item ix_item',
     instruction !! name = Some ix_item ->
     instruction !! name' = Some ix_item' ->
     ixfn_object ix_item = ixfn_object ix_item' ->
     name = name').
Proof.
  unfold _build_namespace.
  assert (Hpos : forall name ix_item,
            ns_instruction (register_instructions idl coder program_id provider
                              (idl_instructions idl) no_namespaces) !! name =
              Some ix_item ->
            idl_instructions idl !! ixfn_object ix_item = Some (ixfn_idl_ix ix_item) /\
            ix_name (ixfn_idl_ix ix_item) = name /\
            ixfn_program_id ix_item = program_id /\
            ixfn_encode_fn ix_item = instruction_build coder).
  { intros name ix_item Hix.
    destruct (register_instructions_positions idl coder program_id provider
                (idl_instructions idl) [] no_namespaces eq_refl) with (name := name)
                (ix_item := ix_item) as (Hp & Hpid & Henc); [| exact Hix |].
    - intros n i Hi. cbn in Hi. rewrite lookup_empty in Hi. discriminate.
    - pose proof (register_instructions_aligned idl coder program_id provider
                    (idl_instructions idl) no_namespaces
                    (aligned_no_namespaces idl coder program_id provider) name) as Hal.
      rewrite Hix in Hal. destruct Hal as (Hname & _).
      cbn [app] in Hp. repeat split; assumption. }
  split; [exact Hpos|].
  intros name name' ix_item ix_item' Hix Hix' Hobj.
  destruct (Hpos name ix_item Hix) as (Hp & Hn & _).
  destruct (Hpos name' ix_item' Hix') as (Hp' & Hn' & _).
  rewrite Hobj in Hp. congruence.
Qed.

(** X20.  When no two definitions declare the same name, every definition
    is registered: the namespace holds, under the name of the definition at
    position [i], the builder number [i] made for it, and it has as many
    entries as the schema has definitions. *)
Theorem distinct_names_all_registered (idl : Idl) (coder : Coder)
    (program_id : PublicKey) (provider : Provider) :
  NoDup (ix_name <$> idl_instructions idl) ->
  let '(_, instruction, _, _, _, _) :=
    _build_namespace idl coder program_id provider in
  (forall i d,
     idl_instructions idl !! i = Some d ->
     instruction !! ix_name d = Some (ix_item_of coder program_id i d)) /\
  size instruction = length (idl_instructions idl).
Proof.
  intros Hnodup. unfold _build_namespace. split.
  - intros i d Hd.
    pose proof (take_drop_middle _ _ _ Hd) as Hsplit.
    assert (Hafter : Forall (fun d' => ix_name d' ≠ ix_name d)
                       (drop (S i) (idl_instructions idl))).
    { apply Forall_lookup. intros j d' Hd' Heq.
      rewrite lookup_drop in Hd'.
      assert (Hi : (ix_name <$> idl_instructions idl) !! i = Some (ix_name d))
        by (rewrite list_lookup_fmap, Hd; reflexivity).
      assert (Hj : (ix_name <$> idl_instructions idl) !! (S i + j)%nat = Some (ix_name d))
        by (rewrite list_lookup_fmap, Hd'; cbn; congruence).
      pose proof (NoDup_lookup _ _ _ _ Hnodup Hi Hj). lia. }
    rewrite <- Hsplit at 1.
    change (d :: drop (S i) (idl_instructions idl))
      with ([d] ++ drop (S i) (idl_instructions idl)).
    rewrite (register_instructions_app idl coder program_id provider
               (take i (idl_instructions idl))),
      (register_instructions_app idl coder program_id provider [d]).
    destruct (register_instructions_keep idl coder program_id provider
                (drop (S i) (idl_instructions idl))
                (register_instructions idl coder program_id provider [d]
                   (register_instructions idl coder program_id provider
                      (take i (idl_instructions idl)) no_namespaces))
                (ix_name d) Hafter) as (-> & _).
    unfold register_instructions at 1. cbn [foldl].
    destruct (register_instruction_same idl coder program_id provider
                (register_instructions idl coder program_id provider
                   (take i (idl_instructions idl)) no_namespaces) d) as (Hi & _).
    rewrite Hi. f_equal. f_equal.
    rewrite register_instructions_allocated. cbn.
    apply length_take_le. apply lookup_lt_Some in Hd. lia.
  - destruct (build_namespace_dom idl coder program_id provider (idl_instructions idl))
      as (Hi & _).
    rewrite <- size_dom, Hi.
    rewrite (size_list_to_set (C := gset string)) by exact Hnodup.
    apply length_fmap.
Qed.

(** X21.  The account namespace of a program has a client exactly for the
    declared account type names, and every client is what
    [AccountClient.__init__] makes of a declared account type of that name
    with the program's own coder, address and provider; a schema without
    account types gives an empty namespace. *)
Theorem Program_init_accounts (idl : Idl) (program_id : PublicKey)
    (provider : option Provider) :
  let self := Program_init idl program_id provider in
  (forall name,
     is_Some (program_account self !! name) <->
     name ∈ typedef_name <$> idl_accounts idl) /\
  (forall name client,
     program_account self !! name = Some client ->
     exists idl_account,
       idl_account ∈ idl_accounts idl /\
       typedef_name idl_account = name /\
       client = AccountClient_init idl idl_account (program_coder self)
                  (program_program_id self) (program_provider self)).
Proof.
  intros self. subst self. unfold Program_init, _build_namespace.
  cbn [program_account program_coder program_program_id program_provider].
  set (used := match provider with Some given => given | None => Provider_local end).
  assert (Haccount :
            match idl_accounts idl with
            | [] => ∅
            | _ :: _ => build_account idl (Coder_new idl) program_id used
            end = build_account idl (Coder_new idl) program_id used).
  { unfold build_account. destruct (idl_accounts idl); reflexivity. }
  rewrite Haccount. unfold build_account. split.
  - intros name. rewrite <- elem_of_dom, fill_dom, dom_empty_L, (left_id_L ∅ (∪)).
    apply elem_of_list_to_set.
  - intros name client Hclient.
    apply fill_origin in Hclient as [Hempty|(a & Hin & Hname & Hval)].
    + rewrite lookup_empty in Hempty. discriminate.
    + exists a. repeat split; [exact Hin | exact Hname | symmetry; exact Hval].
Qed.

End Client.

(** * Examples

    The theorems at the sample collaborators. *)

Lemma sample_discriminator_length (name : string) :
  length (sample_discriminator name) = 8%nat.
Proof.
  unfold sample_discriminator.
  rewrite length_take, length_app, length_replicate. lia.
Qed.

Example sample_client_init :
  AccountClient_init sample_account_size sample_idl Counter_typedef sample_coder
    sample_program_key sample_provider = sample_client /\
  AccountClient_size sample_client = 16.
Proof. split; reflexivity. Qed.

Example b58encode_hello_world :
  String.string_of_list_byte (b58encode (String.list_byte_of_string "hello world")) =
    "StV1DL6CwTryKyV" /\
  String.string_of_list_byte
    (b58encode ([x00; x00] ++ String.list_byte_of_string "hello world")) =
    "11StV1DL6CwTryKyV".
Proof. split; vm_compute; reflexivity. Qed.

(** C1 at the sample transport: the account at [vault] carries another
    type's discriminator and is refused before the coder runs; the account
    at [counter42] is decoded. *)
Lemma fetch_checks_discriminator_witness :
  run (fetch sample_b64decode sample_discriminator sample_client (AddressStr "vault")) =
    (Raise (AccountInvalidDiscriminator "Account vault has an invalid discriminator"),
     [GetAccountInfo (AddressStr "vault") (Some "base64")]) /\
  run (fetch sample_b64decode sample_discriminator sample_client (AddressStr "counter42")) =
    (Ok [("count", VInt 42)],
     [GetAccountInfo (AddressStr "counter42") (Some "base64");
      AccountsDecode counter42_data]).
Proof.
  split.
  - refine (proj1 (fetch_checks_discriminator_before_decoding
                     sample_b64decode sample_discriminator sample_client
                     (AddressStr "vault") (sample_account "VmF1bHQAAAAqAAAAAAAAAA==")
                     "VmF1bHQAAAAqAAAAAAAAAA==" ["base64"] vault_data
                     eq_refl eq_refl eq_refl _) _).
    + cbn. lia.
    + vm_compute. discriminate.
  - refine (proj2 (fetch_checks_discriminator_before_decoding
                     sample_b64decode sample_discriminator sample_client
                     (AddressStr "counter42") (sample_account "Q291bnRlcgAqAAAAAAAAAA==")
                     "Q291bnRlcgAqAAAAAAAAAA==" ["base64"] counter42_data
                     eq_refl eq_refl eq_refl _) _).
    + cbn. lia.
    + vm_compute. reflexivity.
Defined.

(** Against C2 as worded: the account at [short] holds three bytes, and
    [fetch] answers with a discriminator mismatch, not with a decoding
    error; the coder is never called. *)
Lemma fetch_short_data_is_a_discriminator_mismatch :
  sample_b64decode "AQID" = inr [x01; x02; x03] /\
  run (fetch sample_b64decode sample_discriminator sample_client (AddressStr "short")) =
    (Raise (AccountInvalidDiscriminator "Account short has an invalid discriminator"),
     [GetAccountInfo (AddressStr "short") (Some "base64")]).
Proof. split; vm_compute; reflexivity. Qed.

(** C2 as the code has it, at the sample transport: an address that holds
    nothing, and the three-byte account. *)
Lemma fetch_absent_or_short_witness :
  run (fetch sample_b64decode sample_discriminator sample_client (AddressStr "nobody")) =
    (Raise (AccountDoesNotExistError "Account nobody does not exist"),
     [GetAccountInfo (AddressStr "nobody") (Some "base64")]) /\
  run (fetch sample_b64decode sample_discriminator sample_client (AddressStr "short")) =
    (Raise (AccountInvalidDiscriminator "Account short has an invalid discriminator"),
     [GetAccountInfo (AddressStr "short") (Some "base64")]).
Proof.
  split.
  - exact (proj1 (fetch_absent_or_short sample_b64decode sample_discriminator
                    sample_client (AddressStr "nobody") sample_discriminator_length)
                 eq_refl).
  - refine (proj2 (fetch_absent_or_short sample_b64decode sample_discriminator
                     sample_client (AddressStr "short") sample_discriminator_length)
                  (sample_account "AQID") "AQID" ["base64"] [x01; x02; x03]
                  eq_refl eq_refl eq_refl _).
    cbn. lia.
Defined.

(** C3 at the sample: the filter for [Counter] accounts whose ninth byte is
    1. *)
Example all_filter_with_buffer :
  full_memcmp_opts sample_discriminator sample_client (Some [x01])
    (Some [{| memcmp_offset := 16; memcmp_bytes := "2" |}]) =
    [{| memcmp_offset := 0; memcmp_bytes := "rnYB8V5h5cTJ" |};
     {| memcmp_offset := 16; memcmp_bytes := "2" |}] /\
  b58decode (String.list_byte_of_string "rnYB8V5h5cTJ") =
    Some (sample_discriminator "Counter" ++ [x01]).
Proof. split; vm_compute; reflexivity. Qed.

(** C10 as the code has it, at the sample: an override of [-5] reaches the
    rent query and [create_account] as it is. *)
Lemma create_instruction_negative_override_witness :
  run (create_instruction sample_create_account sample_client sample_signer (-5)) =
    (foreign (sample_create_account
                {| from_pubkey := sample_wallet_key;
                   new_account_pubkey := keypair_public_key sample_signer;
                   lamports := (128 + -5) * 6960;
                   space := -5;
                   cap_program_id := sample_program_key |}),
     [GetMinimumBalanceForRentExemption (-5)]).
Proof.
  refine (create_instruction_negative_override sample_create_account sample_client
            sample_signer (-5) _).
  lia.
Defined.

(** Against C10 as worded: with an override of [-5] no instruction is
    returned for the negative value to be placed in.  The rent query is made
    at [-5], and [create_account], which writes the space as an unsigned
    64-bit field of the instruction data, refuses it. *)
Lemma create_instruction_negative_override_returns_no_instruction :
  run (create_instruction sample_create_account sample_client sample_signer (-5)) =
    (Raise (Foreign "FormatFieldError"
              "integer out of range for an unsigned 64-bit field"),
     [GetMinimumBalanceForRentExemption (-5)]) /\
  sample_rent (-5) = inr 856080.
Proof. split; vm_compute; reflexivity. Qed.

(** C6 at the sample: without an override the space is the size, 16. *)
Example create_instruction_default_space :
  snd (run (create_instruction sample_create_account sample_client sample_signer 0)) =
    [GetMinimumBalanceForRentExemption 16] /\
  fst (run (create_instruction sample_create_account sample_client sample_signer 0)) =
    foreign (sample_create_account
               {| from_pubkey := sample_wallet_key;
                  new_account_pubkey := keypair_public_key sample_signer;
                  lamports := 1002240;
                  space := 16;
                  cap_program_id := sample_program_key |}).
Proof. split; vm_compute; reflexivity. Qed.

(** C8 at the sample transports: two records give two pairs in order; a
    record that does not decode fails the call with its error, although the
    record after it is sound. *)
Lemma all_decodes_every_record_witness :
  fst (run (all sample_b64decode sample_discriminator sample_PublicKey_of_str
              sample_client None None None)) =
    Ok [ {| public_key := mkPublicKey (replicate 31 x00 ++ [x02]);
            account := [("count", VInt 42)] |};
         {| public_key := mkPublicKey (replicate 31 x00 ++ [x03]);
            account := [("count", VInt 7)] |} ] /\
  fst (run (all sample_b64decode sample_discriminator sample_PublicKey_of_str
              truncated_client None None None)) =
    Raise (Foreign "StreamError" "stream read less than specified amount").
Proof.
  split.
  - refine (proj2 (proj1 (all_decodes_every_record sample_b64decode sample_discriminator
                            sample_PublicKey_of_str sample_client None None None _
                            eq_refl) _) _).
    constructor; [|constructor; [|constructor]].
    + exists "Q291bnRlcgAqAAAAAAAAAA==", ["base64"], counter42_data.
      repeat split; vm_compute; reflexivity.
    + exists "Q291bnRlcgAHAAAAAAAAAA==", ["base64"], counter7_data.
      repeat split; vm_compute; reflexivity.
  - refine (proj2 (all_decodes_every_record sample_b64decode sample_discriminator
                     sample_PublicKey_of_str truncated_client None None None _ eq_refl)
                  [ {| keyed_pubkey := "11111111111111111111111111111113";
                       keyed_account := sample_account "Q291bnRlcgAqAAAAAAAAAA==" |} ]
                  {| keyed_pubkey := "11111111111111111111111111111114";
                     keyed_account := sample_account "Q291bnRlcgAqAA==" |}
                  [ {| keyed_pubkey := "11111111111111111111111111111115";
                       keyed_account := sample_account "Q291bnRlcgAHAAAAAAAAAA==" |} ]
                  _ eq_refl _ _).
    + constructor; [|constructor].
      exists {| public_key := mkPublicKey (replicate 31 x00 ++ [x02]);
                account := [("count", VInt 42)] |}.
      exists "Q291bnRlcgAqAAAAAAAAAA==", ["base64"], counter42_data.
      repeat split; vm_compute; reflexivity.
    + vm_compute. reflexivity.
Defined.

(** C7 at the sample schema: the keys and the sharing of the builder. *)
Example sample_namespaces_keys :
  let '(rpc, instruction, transaction, _, simulate, _) :=
    _build_namespace sample_account_size _ _ _ _ sample_build_transaction_fn
      sample_build_rpc_item sample_build_simulate_item sample_build_types
      sample_idl sample_coder sample_program_key sample_provider in
  instruction !! "initialize" =
    Some (ix_item_of sample_coder sample_program_key 0 initialize_ix) /\
  instruction !! "increment" =
    Some (ix_item_of sample_coder sample_program_key 1 increment_ix) /\
  instruction !! "Initialize" = None /\
  transaction !! "increment" =
    Some (increment_ix, ix_item_of sample_coder sample_program_key 1 increment_ix).
Proof. repeat split; vm_compute; reflexivity. Qed.

(** C9 at a schema that declares [initialize] twice: the third definition,
    allocated as builder number 2, is the one registered, and the
    namespaces have two entries for three definitions. *)
Lemma later_definition_overwrites_witness :
  let '(rpc, instruction, transaction, _, simulate, _) :=
    _build_namespace sample_account_size _ _ _ _ sample_build_transaction_fn
      sample_build_rpc_item sample_build_simulate_item sample_build_types
      duplicate_idl sample_coder sample_program_key sample_provider in
  let ix_item := ix_item_of sample_coder sample_program_key 2 initialize_again_ix in
  let tx_item := sample_build_transaction_fn initialize_again_ix ix_item in
  (instruction !! "initialize" = Some ix_item /\
   ixfn_object ix_item ≠ 0%nat /\
   transaction !! "initialize" = Some tx_item /\
   rpc !! "initialize" =
     Some (sample_build_rpc_item initialize_again_ix tx_item
             (_parse_idl_errors duplicate_idl) sample_provider) /\
   simulate !! "initialize" =
     Some (sample_build_simulate_item initialize_again_ix tx_item
             (_parse_idl_errors duplicate_idl) sample_provider sample_coder
             sample_program_key duplicate_idl)) /\
  size instruction = 2%nat /\ size transaction = 2%nat /\
  size rpc = 2%nat /\ size simulate = 2%nat.
Proof.
  exact (later_definition_overwrites sample_account_size _ _ _ _
           sample_build_transaction_fn sample_build_rpc_item sample_build_simulate_item
           sample_build_types duplicate_idl sample_coder sample_program_key
           sample_provider [] [increment_ix] [] initialize_ix initialize_again_ix
           eq_refl eq_refl (Forall_nil_2 _)).
Defined.

(** Against C5 as worded: built with no provider, the program and its
    account clients use the process-wide default. *)
Lemma Program_init_falls_back_to_local_provider :
  program_provider _ _ _ _
    (Program_init sample_account_size (fun _ => sample_coder) sample_local_provider
       _ _ _ _ sample_build_transaction_fn sample_build_rpc_item
       sample_build_simulate_item sample_build_types
       sample_idl sample_program_key None) = sample_local_provider /\
  _provider <$>
    (program_account _ _ _ _
       (Program_init sample_account_size (fun _ => sample_coder) sample_local_provider
          _ _ _ _ sample_build_transaction_fn sample_build_rpc_item
          sample_build_simulate_item sample_build_types
          sample_idl sample_program_key None) !! "Counter") =
    Some sample_local_provider.
Proof. split; vm_compute; reflexivity. Qed.

(** Against C4 as worded: a raw DEFLATE stream, which a headerless decoder
    inflates to the text of the empty object, does not pass [_pako_inflate],
    whatever the DEFLATE decoder: its first two bytes are no zlib header.
    The same stream inside a zlib container does pass.  So [fetch_idl]
    fails on an IDL account whose data is raw DEFLATE. *)
Lemma pako_inflate_expects_a_zlib_header :
  raw_decompress inflate_stored raw_deflate_empty_object = Ok ["{"%byte; "}"%byte] /\
  (forall inflate_raw,
     _pako_inflate inflate_raw raw_deflate_empty_object =
       Raise (zlib_error "incorrect header check")) /\
  _pako_inflate inflate_stored zlib_empty_object = Ok ["{"%byte; "}"%byte] /\
  (forall b64decode Provider_local translate_address idl_address decode_idl_account
          inflate_raw utf8_decode json_loads Idl_from_json address provider
          pid idl_addr value payload rest decoded idl_account,
     translate_address address = inr pid ->
     idl_address pid = inr idl_addr ->
     get_account_info
       (connection (match provider with Some given => given | None => Provider_local end))
       (AddressKey idl_addr) None = inr (Some value) ->
     account_data value = payload :: rest ->
     b64decode payload = inr decoded ->
     decode_idl_account (drop 8 decoded) = inr idl_account ->
     idl_data idl_account = raw_deflate_empty_object ->
     fst (run (fetch_idl b64decode Provider_local translate_address idl_address
                 decode_idl_account inflate_raw utf8_decode json_loads Idl_from_json
                 address provider)) =
       Raise (zlib_error "incorrect header check")).
Proof.
  split; [vm_compute; reflexivity|].
  split; [intros inflate_raw; reflexivity|].
  split; [vm_compute; reflexivity|].
  intros b64decode Provider_local translate_address idl_address decode_idl_account
    inflate_raw utf8_decode json_loads Idl_from_json address provider
    pid idl_addr value payload rest decoded idl_account
    Hpid Haddr Hvalue Hdata Hb64 Hacc Hraw.
  rewrite fetch_idl_run, Hpid, Haddr. cbn [fst]. rewrite Hvalue.
  unfold inflate_idl_account. run_unfold.
  rewrite Hdata. cbn [item0]. rewrite Hb64. cbn [foreign].
  change (Z.to_nat ACCOUNT_DISCRIMINATOR_SIZE) with 8%nat.
  rewrite Hacc. cbn [foreign]. rewrite Hraw. reflexivity.
Qed.

(** ** The further properties at the samples *)

(** X1 at a schema that declares the code 6000 twice: the later, whose
    message is empty, is the one in the table, under its name; 6001 has no
    message and 6002 has one. *)
Lemma parse_idl_errors_last_wins_witness :
  _parse_idl_errors errors_idl !! 6000 = Some "Forbidden" /\
  _parse_idl_errors errors_idl !! 6001 = Some "Overflow" /\
  _parse_idl_errors errors_idl !! 6002 = Some "The program is paused".
Proof.
  split; [|split].
  - refine (proj2 (parse_idl_errors_last_wins errors_idl
                     [ mkIdlErrorCode 6000 "Unauthorized" (Some "You are not authorized");
                       mkIdlErrorCode 6001 "Overflow" None;
                       mkIdlErrorCode 6002 "Paused" (Some "The program is paused") ]
                     (mkIdlErrorCode 6000 "Forbidden" (Some "")) [] eq_refl _) _).
    + constructor.
    + right. reflexivity.
  - refine (proj2 (parse_idl_errors_last_wins errors_idl
                     [ mkIdlErrorCode 6000 "Unauthorized" (Some "You are not authorized") ]
                     (mkIdlErrorCode 6001 "Overflow" None)
                     [ mkIdlErrorCode 6002 "Paused" (Some "The program is paused");
                       mkIdlErrorCode 6000 "Forbidden" (Some "") ] eq_refl _) _).
    + repeat constructor; cbn; lia.
    + left. reflexivity.
  - refine (proj1 (parse_idl_errors_last_wins errors_idl
                     [ mkIdlErrorCode 6000 "Unauthorized" (Some "You are not authorized");
                       mkIdlErrorCode 6001 "Overflow" None ]
                     (mkIdlErrorCode 6002 "Paused" (Some "The program is paused"))
                     [ mkIdlErrorCode 6000 "Forbidden" (Some "") ] eq_refl _)
                  "The program is paused" eq_refl _).
    + repeat constructor; cbn; lia.
    + discriminate.
Defined.

(** X3 at the sample schema. *)
Lemma build_account_last_wins_witness :
  dom (build_account sample_account_size sample_idl sample_coder sample_program_key
         sample_provider) = list_to_set ["Counter"] /\
  build_account sample_account_size sample_idl sample_coder sample_program_key
    sample_provider !! "Counter" = Some sample_client.
Proof.
  refine (build_account_last_wins sample_account_size sample_idl sample_coder
            sample_program_key sample_provider [] Counter_typedef [] eq_refl _).
  constructor.
Defined.

(** X5 at the faulty transport: a failure of the transport, with no call of
    the coder; and the coder's own failure on a counter cut short, whose
    discriminator is sound. *)
Lemma fetch_failure_origin_witness :
  (snd (run (fetch sample_b64decode sample_discriminator faulty_client (AddressStr "down"))) =
     [GetAccountInfo (AddressStr "down") (Some "base64")] \/
   exists data,
     snd (run (fetch sample_b64decode sample_discriminator faulty_client
                 (AddressStr "down"))) =
       [GetAccountInfo (AddressStr "down") (Some "base64"); AccountsDecode data] /\
     take 8 data = sample_discriminator "Counter" /\
     accounts_decode sample_coder data =
       Raise (Foreign "ConnectError" "All connection attempts failed")) /\
  (snd (run (fetch sample_b64decode sample_discriminator faulty_client
               (AddressStr "truncated"))) =
     [GetAccountInfo (AddressStr "truncated") (Some "base64")] \/
   exists data,
     snd (run (fetch sample_b64decode sample_discriminator faulty_client
                 (AddressStr "truncated"))) =
       [GetAccountInfo (AddressStr "truncated") (Some "base64"); AccountsDecode data] /\
     take 8 data = sample_discriminator "Counter" /\
     accounts_decode sample_coder data =
       Raise (Foreign "StreamError" "stream read less than specified amount")).
Proof.
  split.
  - refine (fetch_failure_origin sample_b64decode sample_discriminator faulty_client
              (AddressStr "down")
              (Foreign "ConnectError" "All connection attempts failed") _).
    vm_compute. reflexivity.
  - refine (fetch_failure_origin sample_b64decode sample_discriminator faulty_client
              (AddressStr "truncated")
              (Foreign "StreamError" "stream read less than specified amount") _).
    vm_compute. reflexivity.
Defined.

Example fetch_truncated_reaches_the_coder :
  run (fetch sample_b64decode sample_discriminator faulty_client (AddressStr "truncated")) =
    (Raise (Foreign "StreamError" "stream read less than specified amount"),
     [GetAccountInfo (AddressStr "truncated") (Some "base64");
      AccountsDecode (String.list_byte_of_string "Counter" ++ [x00; "*"%byte; x00])]).
Proof. vm_compute. reflexivity. Qed.

(** X6 at the faulty transport. *)
Lemma fetch_transport_failure_witness :
  run (fetch sample_b64decode sample_discriminator faulty_client (AddressStr "down")) =
    (Raise (Foreign "ConnectError" "All connection attempts failed"),
     [GetAccountInfo (AddressStr "down") (Some "base64")]).
Proof.
  exact (fetch_transport_failure sample_b64decode sample_discriminator faulty_client
           (AddressStr "down") "ConnectError" "All connection attempts failed" eq_refl).
Defined.

(** X7 at the faulty transport: an empty [data] array and a payload of three
    characters. *)
Lemma fetch_malformed_response_witness :
  (exists class_name msg,
     run (fetch sample_b64decode sample_discriminator faulty_client (AddressStr "hollow")) =
       (Raise (Foreign class_name msg), [GetAccountInfo (AddressStr "hollow") (Some "base64")]) /\
     (@nil string = [] -> class_name = "IndexError") /\
     (forall payload rest, @nil string = payload :: rest ->
        sample_b64decode payload = inl (class_name, msg))) /\
  (exists class_name msg,
     run (fetch sample_b64decode sample_discriminator faulty_client (AddressStr "garbled")) =
       (Raise (Foreign class_name msg),
        [GetAccountInfo (AddressStr "garbled") (Some "base64")]) /\
     (["Q29"; "base64"] = [] -> class_name = "IndexError") /\
     (forall payload rest, ["Q29"; "base64"] = payload :: rest ->
        sample_b64decode payload = inl (class_name, msg))).
Proof.
  split.
  - refine (fetch_malformed_response sample_b64decode sample_discriminator faulty_client
              (AddressStr "hollow") {| account_data := [] |} eq_refl _).
    left. reflexivity.
  - refine (fetch_malformed_response sample_b64decode sample_discriminator faulty_client
              (AddressStr "garbled") (sample_account "Q29") eq_refl _).
    right. exists "Q29", ["base64"], "binascii.Error", "Incorrect padding".
    split; [reflexivity | vm_compute; reflexivity].
Defined.

(** X8 at the faulty transport, without and with an override. *)
Lemma create_instruction_rent_failure_witness :
  run (create_instruction sample_create_account faulty_client sample_signer 0) =
    (Raise (Foreign "ConnectError" "All connection attempts failed"),
     [GetMinimumBalanceForRentExemption 16]) /\
  run (create_instruction sample_create_account faulty_client sample_signer 100) =
    (Raise (Foreign "ConnectError" "All connection attempts failed"),
     [GetMinimumBalanceForRentExemption 100]).
Proof.
  split.
  - exact (create_instruction_rent_failure sample_create_account faulty_client
             sample_signer 0 "ConnectError" "All connection attempts failed" eq_refl).
  - exact (create_instruction_rent_failure sample_create_account faulty_client
             sample_signer 100 "ConnectError" "All connection attempts failed" eq_refl).
Defined.

(** X11 at the faulty transport. *)
Lemma all_transport_failure_witness :
  run (all sample_b64decode sample_discriminator sample_PublicKey_of_str faulty_client
         (Some [x01]) None (Some 16)) =
    (Raise (Foreign "ConnectError" "All connection attempts failed"),
     [GetProgramAccounts sample_program_key "base64" None (Some 16)
        [{| memcmp_offset := 0; memcmp_bytes := "rnYB8V5h5cTJ" |}]]).
Proof.
  exact (all_transport_failure sample_b64decode sample_discriminator
           sample_PublicKey_of_str faulty_client (Some [x01]) None (Some 16)
           "ConnectError" "All connection attempts failed" eq_refl).
Defined.

(** X12 at the sample transport: one search, then the two counters in the
    order of the response. *)
Lemma all_trace_on_success_witness :
  exists datas,
    Forall2 (fun r data =>
               exists payload rest,
                 account_data (keyed_account r) = payload :: rest /\
                 sample_b64decode payload = inr data)
      [ {| keyed_pubkey := "11111111111111111111111111111113";
           keyed_account := sample_account "Q291bnRlcgAqAAAAAAAAAA==" |};
        {| keyed_pubkey := "11111111111111111111111111111114";
           keyed_account := sample_account "Q291bnRlcgAHAAAAAAAAAA==" |} ] datas /\
    snd (run (all sample_b64decode sample_discriminator sample_PublicKey_of_str
                sample_client None None None)) =
      GetProgramAccounts sample_program_key "base64" (Some "confirmed") None
        (full_memcmp_opts sample_discriminator sample_client None None)
      :: (AccountsDecode <$> datas).
Proof.
  refine (all_trace_on_success sample_b64decode sample_discriminator
            sample_PublicKey_of_str sample_client None None None _
            [ {| public_key := mkPublicKey (replicate 31 x00 ++ [x02]);
                 account := [("count", VInt 42)] |};
              {| public_key := mkPublicKey (replicate 31 x00 ++ [x03]);
                 account := [("count", VInt 7)] |} ] eq_refl _).
  vm_compute. reflexivity.
Defined.

Example all_trace_of_the_sample :
  snd (run (all sample_b64decode sample_discriminator sample_PublicKey_of_str
              sample_client None None None)) =
    [ GetProgramAccounts sample_program_key "base64" (Some "confirmed") None
        [{| memcmp_offset := 0; memcmp_bytes := "CHD3kPDqxRM" |}];
      AccountsDecode counter42_data;
      AccountsDecode counter7_data ].
Proof. vm_compute. reflexivity. Qed.

(** X13 at the sample client: no buffer and the empty buffer send the same
    filters. *)
Lemma filters_determine_bytes_witness :
  sample_discriminator "Counter" ++ default [] None =
    sample_discriminator "Counter" ++ default [] (Some []) /\
  default [] (None : option (list MemcmpOpts)) = default [] (Some []).
Proof.
  refine (filters_determine_bytes sample_discriminator sample_client sample_client
            None (Some []) None (Some []) _).
  vm_compute. reflexivity.
Defined.

(** X14 at the first byte of a zlib header alone, and at the raw DEFLATE
    stream of the empty object. *)
Lemma pako_inflate_outcomes_witness :
  _pako_inflate inflate_stored [x78] = Ok [] /\
  ((2 <= length raw_deflate_empty_object)%nat /\
   exists msg, zlib_error "incorrect header check" = Foreign "zlib.error" msg).
Proof.
  split.
  - refine (proj1 (pako_inflate_outcomes inflate_stored [x78]) _). cbn. lia.
  - exact (proj2 (pako_inflate_outcomes inflate_stored raw_deflate_empty_object)
             (zlib_error "incorrect header check") eq_refl).
Defined.

(** A header that announces a preset dictionary: nothing happens while the
    four bytes of the dictionary's identifier are incomplete, and the
    missing dictionary is an error once they are there. *)
Example pako_inflate_preset_dictionary :
  (forall inflate_raw, _pako_inflate inflate_raw [x78; xbb] = Ok []) /\
  (forall inflate_raw, _pako_inflate inflate_raw [x78; xbb; x01; x01; x01] = Ok []) /\
  (forall inflate_raw,
     _pako_inflate inflate_raw [x78; xbb; x01; x01; x01; x01] =
       Raise (Foreign "zlib.error" "Error 2 while decompressing data")).
Proof. repeat split; intros inflate_raw; reflexivity. Qed.

(** X15 at the zlib stream of the empty object with its last byte cleared. *)
Lemma pako_inflate_checks_trailer_witness :
  _pako_inflate inflate_stored
    ([x78; x01] ++ raw_deflate_empty_object ++ [x01; x75; x00; x00]) =
    Raise (zlib_error "incorrect data check").
Proof.
  refine (pako_inflate_checks_trailer inflate_stored x78 x01
            (raw_deflate_empty_object ++ [x01; x75; x00; x00])
            ["{"%byte; "}"%byte] [x01; x75; x00; x00] _ _ _ _ _ _ _).
  - reflexivity.
  - reflexivity.
  - vm_compute. discriminate.
  - reflexivity.
  - vm_compute. reflexivity.
  - cbn. lia.
  - vm_compute. discriminate.
Defined.

(** X16 at the sample transport: the program of key 1 has published no
    schema. *)
Lemma fetch_idl_failures_witness :
  IdlNotFoundError "IDL not found for program: 11111111111111111111111111111112" =
    IdlNotFoundError
      ("IDL not found for program: " +:+
       format_address (AddressStr "11111111111111111111111111111112")) \/
  exists class_name msg,
    IdlNotFoundError "IDL not found for program: 11111111111111111111111111111112" =
      Foreign class_name msg.
Proof.
  refine (fetch_idl_failures sample_b64decode sample_local_provider
            sample_translate_address sample_idl_address sample_decode_idl_account
            inflate_stored sample_utf8_decode sample_json_loads sample_Idl_from_json
            (AddressStr "11111111111111111111111111111112") (Some idl_provider) _ _).
  vm_compute. reflexivity.
Defined.

(** [fetch_idl] and [Program.at] at the program that has published the
    empty schema. *)
Example fetch_idl_of_the_sample_program :
  fst (run (fetch_idl sample_b64decode sample_local_provider sample_translate_address
              sample_idl_address sample_decode_idl_account inflate_stored
              sample_utf8_decode sample_json_loads sample_Idl_from_json
              (AddressStr "11111111111111111111111111111113") (Some idl_provider))) =
    Ok empty_idl.
Proof. vm_compute. reflexivity. Qed.

(** X18 at the sample transport. *)
Lemma Program_at_failure_witness :
  run (Program_at sample_b64decode sample_account_size (fun _ => sample_coder)
         sample_local_provider _ _ _ _ sample_build_transaction_fn sample_build_rpc_item
         sample_build_simulate_item sample_build_types sample_translate_address
         sample_idl_address sample_decode_idl_account inflate_stored sample_utf8_decode
         sample_json_loads sample_Idl_from_json
         (AddressStr "11111111111111111111111111111112") (Some idl_provider)) =
    (Raise (IdlNotFoundError
              "IDL not found for program: 11111111111111111111111111111112"),
     snd (run (fetch_idl sample_b64decode sample_local_provider sample_translate_address
                 sample_idl_address sample_decode_idl_account inflate_stored
                 sample_utf8_decode sample_json_loads sample_Idl_from_json
                 (AddressKey (mkPublicKey (replicate 31 x00 ++ [x01])))
                 (Some idl_provider)))).
Proof.
  refine (Program_at_failure sample_b64decode sample_account_size (fun _ => sample_coder)
            sample_local_provider _ _ _ _ sample_build_transaction_fn
            sample_build_rpc_item sample_build_simulate_item sample_build_types
            sample_translate_address sample_idl_address sample_decode_idl_account
            inflate_stored sample_utf8_decode sample_json_loads sample_Idl_from_json
            (AddressStr "11111111111111111111111111111112") (Some idl_provider)
            (mkPublicKey (replicate 31 x00 ++ [x01])) _ _ _).
  - vm_compute. reflexivity.
  - vm_compute. reflexivity.
Defined.

(** X20 at the sample schema, whose two instructions have two names. *)
Lemma distinct_names_all_registered_witness :
  let '(_, instruction, _, _, _, _) :=
    _build_namespace sample_account_size _ _ _ _ sample_build_transaction_fn
      sample_build_rpc_item sample_build_simulate_item sample_build_types
      sample_idl sample_coder sample_program_key sample_provider in
  (forall i d,
     idl_instructions sample_idl !! i = Some d ->
     instruction !! ix_name d = Some (ix_item_of sample_coder sample_program_key i d)) /\
  size instruction = 2%nat.
Proof.
  refine (distinct_names_all_registered sample_account_size _ _ _ _
            sample_build_transaction_fn sample_build_rpc_item sample_build_simulate_item
            sample_build_types sample_idl sample_coder sample_program_key
            sample_provider _).
  apply (bool_decide_unpack _). vm_compute. exact I.
Defined.
